(** * RailStandardAI: a shallow embedding of the citation resolver, the
    local store, the conversation controller and the viewer overlay.

    Source files embedded here:
    - [src/App.tsx]                      (processFile, handleFileUpload,
                                          handleDrop, handleAsk,
                                          removeDocument,
                                          handleCitationClick)
    - [src/services/storageService.ts]   (saveDocument, deleteDocument,
                                          saveChatMessage, getChatHistory)
    - [src/unnamed/part_000]             (ClauseModal: geometry, navigation,
                                          renderPage)
    - [src/unnamed/part_001]             (extractTextFromPdf)
    - [src/unnamed/part_002]             (queryStandards)

    Conventions.  A JavaScript string is a [string]: one [ascii] per UTF-16
    code unit, for code units below 256.  Integer-valued JavaScript numbers
    (lengths, page numbers, millisecond timestamps, byte sizes) are [Z];
    pixel quantities, which the code scales by 0.9, are exact rationals [Q]. *)

From Stdlib Require Import ZArith QArith Qminmax List String Ascii Bool Lia.
From Stdlib Require Import Strings.Byte DecimalString.
From Stdlib Require Import Permutation Sorted.
From Stdlib Require OrderedTypeEx.
From Stdlib Require Import Lqa.
Import ListNotations.

#[local] Set Warnings "-register-all".

Local Open Scope Z_scope.
Local Open Scope string_scope.

(* ===================================================================== *)
(** ** JavaScript strings *)
(* ===================================================================== *)

Module JsString.

(** The strings of this development stop at code unit 255.  Beyond it
    JavaScript's [toLowerCase] can change the length of a string (U+0130
    becomes two units); no property below relies on the length being
    kept. *)

(** [String.prototype.toLowerCase] on one code unit below 256: the ASCII
    capitals and the Latin-1 capitals (U+00C0..U+00DE without U+00D7) move
    up by 32, every other unit is unchanged. *)
Definition lowerChar (c : ascii) : ascii :=
  let n := N_of_ascii c in
  if ((65 <=? n) && (n <=? 90))%N then ascii_of_N (n + 32)
  else if ((192 <=? n) && (n <=? 222) && negb (n =? 215))%N
       then ascii_of_N (n + 32)
       else c.

Fixpoint toLowerCase (s : string) : string :=
  match s with
  | EmptyString => EmptyString
  | String c r => String (lowerChar c) (toLowerCase r)
  end.

(** The code units below 256 that [String.prototype.trim] removes: TAB, LF,
    VT, FF, CR, SPACE and NBSP. *)
Definition isSpace (c : ascii) : bool :=
  let n := N_of_ascii c in
  ((9 <=? n) && (n <=? 13) || (n =? 32) || (n =? 160))%N.

Fixpoint trimStart (s : string) : string :=
  match s with
  | EmptyString => EmptyString
  | String c r => if isSpace c then trimStart r else s
  end.

(** Drops the trailing white space: a unit is kept when it is not white
    space or when something survives after it. *)
Fixpoint trimEnd (s : string) : string :=
  match s with
  | EmptyString => EmptyString
  | String c r =>
      match trimEnd r with
      | EmptyString => if isSpace c then EmptyString else String c EmptyString
      | r' => String c r'
      end
  end.

Definition trim (s : string) : string := trimEnd (trimStart s).

Definition eqb_ci (a b : ascii) : bool :=
  Ascii.eqb (lowerChar a) (lowerChar b).

(** [true] when [s], compared without case, is exactly [".pdf"]. *)
Definition isDotPdf (s : string) : bool :=
  match s with
  | String c0 (String c1 (String c2 (String c3 EmptyString))) =>
      Ascii.eqb c0 "."%char && eqb_ci c1 "p"%char
      && eqb_ci c2 "d"%char && eqb_ci c3 "f"%char
  | _ => false
  end.

(** [s.replace(/\.pdf$/i, '')]: the pattern is anchored at the end of the
    input, so at most the last four units go. *)
Fixpoint stripPdf (s : string) : string :=
  match s with
  | EmptyString => EmptyString
  | String c r => if isDotPdf s then EmptyString else String c (stripPdf r)
  end.

(** [s.includes(t)]: [t] occurs in [s] at some position. *)
Fixpoint includes (s t : string) : bool :=
  String.prefix t s
  || match s with
     | EmptyString => false
     | String _ r => includes r t
     end.

(** [s.endsWith(t)]. *)
Fixpoint endsWith (s t : string) : bool :=
  String.eqb s t
  || match s with
     | EmptyString => false
     | String _ r => endsWith r t
     end.

Definition len (s : string) : Z := Z.of_nat (String.length s).

End JsString.

(* ===================================================================== *)
(** ** JavaScript arrays *)
(* ===================================================================== *)

Module JsArray.
Section Sort.
Context {A : Type} (cmp : A -> A -> Z).

(** [x] goes in front of the first element it does not compare greater
      than, so that it stays ahead of its equals. *)
Fixpoint insert (x : A) (l : list A) : list A :=
    match l with
    | [] => [x]
    | y :: r => if (cmp x y <=? 0)%Z then x :: l else y :: insert x r
    end.

(** [Array.prototype.sort(cmp)], which is stable (ECMAScript 2019). *)
Fixpoint sort (l : list A) : list A :=
    match l with
    | [] => []
    | x :: r => insert x (sort r)
    end.
End Sort.

(** Orderings by an integer key, for comparators [key a - key b]. *)
Definition keyLe {A} (key : A -> Z) (a b : A) : Prop := (key a <= key b)%Z.
Definition keyLt {A} (key : A -> Z) (a b : A) : Prop := (key a < key b)%Z.
End JsArray.

(* ===================================================================== *)
(** ** Records of [./types] *)
(* ===================================================================== *)

(** The interfaces of [./types], which the sources hold in
    [src/vite.config.ts], lines 28-54 (after the separator): [RailDocument],
    [Citation], [ChatMessage] and [GeminiResponse], field for field.  A
    [Date] is its millisecond value; an optional field is an [option]. *)
Module Citation.
Record t := mk {
  standard : string;
  clause : string;
  page : option Z          (* [None]: the field is absent *)
}.
End Citation.

Module RailDocument.
Record t := mk {
  id : string;
  name : string;
  content : string;
  size : Z;
  uploadDate : Z;          (* milliseconds since the epoch *)
  pdfData : list byte
}.
End RailDocument.

Inductive Role := user | assistant.

Module ChatMessage.
Record t := mk {
  id : string;
  role : Role;
  text : string;
  citations : option (list Citation.t);
  timestamp : Z            (* [new Date(...).getTime()] *)
}.
End ChatMessage.

Module GeminiResponse.
Record t := mk {
  answer : string;
  citations : list Citation.t
}.
End GeminiResponse.

(** [interface ActiveClause] of [src/App.tsx]. *)
Module ActiveClause.
Record t := mk {
  standardName : string;
  clauseNumber : string;
  pdfData : list byte;
  page : Z
}.
End ActiveClause.

(** A browser [File]: its size is the length of its content. *)
Module File.
Record t := mk {
  name : string;
  type : string;
  bytes : list byte
}.
Definition size (f : t) : Z := Z.of_nat (List.length (bytes f)).
End File.

(* ===================================================================== *)
(** ** Effects: state and exceptions *)
(* ===================================================================== *)

(** An [await]ed call either yields a value or throws an [Error] carrying a
    message; the state reached before the throw is kept. *)
Inductive Outcome (A : Type) : Type :=
| Ok (a : A)
| Throw (message : string).
Arguments Ok {A} a.
Arguments Throw {A} message.

Definition M (S A : Type) : Type := S -> Outcome A * S.

Definition ret {S A} (a : A) : M S A := fun s => (Ok a, s).

Definition bind {S A B} (m : M S A) (k : A -> M S B) : M S B :=
  fun s =>
    match m s with
    | (Ok a, s') => k a s'
    | (Throw e, s') => (Throw e, s')
    end.

Definition throw {S A} (e : string) : M S A := fun s => (Throw e, s).

Definition get {S} : M S S := fun s => (Ok s, s).

Definition modify {S} (f : S -> S) : M S unit := fun s => (Ok tt, f s).

(** [try { m } catch (err) { h err }]. *)
Definition tryCatch {S A} (m : M S A) (h : string -> M S A) : M S A :=
  fun s =>
    match m s with
    | (Ok a, s') => (Ok a, s')
    | (Throw e, s') => h e s'
    end.

(** [try { m } finally { f }]: [f] runs on both exits; what [m] returned or
    threw survives unless [f] throws itself. *)
Definition tryFinally {S A} (m : M S A) (f : M S unit) : M S A :=
  fun s =>
    match m s with
    | (o, s') =>
        match f s' with
        | (Ok _, s'') => (o, s'')
        | (Throw e, s'') => (Throw e, s'')
        end
    end.

(** [await Promise.all([m1, m2])]: both calls are started, so both act on
    the state; the result is the pair of values, or a rejection when one of
    them rejects. *)
Definition promiseAll {S A B} (m1 : M S A) (m2 : M S B) : M S (A * B) :=
  fun s =>
    match m1 s with
    | (o1, s1) =>
        match m2 s1 with
        | (o2, s2) =>
            (match o1, o2 with
             | Ok a, Ok b => Ok (a, b)
             | Throw e, _ => Throw e
             | Ok _, Throw e => Throw e
             end, s2)
        end
    end.

Declare Scope js_scope.
Delimit Scope js_scope with js.
Notation "x <- m ;; k" := (bind m (fun x => k))
  (at level 61, m at next level, right associativity) : js_scope.
Notation "m ;;; k" := (bind m (fun _ => k))
  (at level 61, right associativity) : js_scope.

(** [a || b] on strings: the empty string is falsy. *)
Definition orElse (a b : string) : string :=
  match a with EmptyString => b | _ => a end.

Definition nl : string := String (ascii_of_nat 10) EmptyString.

Definition showZ (z : Z) : string := NilZero.string_of_int (Z.to_int z).

(* ===================================================================== *)
(** ** The environment: pdf.js, the remote model, identifiers, the clock *)
(* ===================================================================== *)

(** What the code observes of a document decoded by pdf.js. *)
Module PdfDocument.
Record t := mk {
  numPages : Z;
  (** the [str] items of page [i] joined by spaces; [None] when [getPage] or
      [getTextContent] rejects for that page *)
  getPageText : Z -> option string
}.
End PdfDocument.

(** The collaborators outside the repository, as the code calls them. *)
Record Env := mkEnv {
  (** [pdfjsLib.getDocument({data}).promise]; [None]: the promise rejects *)
  getDocument : list byte -> option PdfDocument.t;
  (** the n-th value of [crypto.randomUUID()] *)
  randomUUID : nat -> string;
  (** the n-th reading [new Date()] of the clock, in milliseconds *)
  dateNow : nat -> Z;
  (** [process.env.API_KEY] *)
  apiKey : option string;
  (** [response.text] of the n-th [ai.models.generateContent] call on the
      given [contents]; [Ok None] is an absent text *)
  generateContent : string -> nat -> Outcome (option string);
  (** [JSON.parse(...) as GeminiResponse] *)
  jsonParse : string -> Outcome GeminiResponse.t
}.

(** The calls made to the store and to the remote query, in order. *)
Inductive Event :=
| EvPutDocument (key : string)
| EvDeleteDocument (key : string)
| EvPutChat (key : string)
| EvClearChat
| EvQuery (question : string) (documents : list RailDocument.t).

(** The browser side: the two IndexedDB object stores (records in ascending
    key order, as [getAll] returns them), how many identifiers, clock
    readings and remote calls were consumed, the faults the storage engine
    will raise on the coming requests ([Some msg]: the request fails with
    [msg]), and the trace of the calls made. *)
Record World := mkWorld {
  docStore : list RailDocument.t;
  chatStore : list ChatMessage.t;
  uuidCount : nat;
  clockCount : nat;
  queryCount : nat;
  faults : list (option string);
  log : list Event
}.

Definition with_docStore (v : list RailDocument.t) (w : World) : World :=
  mkWorld v (chatStore w) (uuidCount w) (clockCount w) (queryCount w)
          (faults w) (log w).
Definition with_chatStore (v : list ChatMessage.t) (w : World) : World :=
  mkWorld (docStore w) v (uuidCount w) (clockCount w) (queryCount w)
          (faults w) (log w).
Definition with_uuidCount (v : nat) (w : World) : World :=
  mkWorld (docStore w) (chatStore w) v (clockCount w) (queryCount w)
          (faults w) (log w).
Definition with_clockCount (v : nat) (w : World) : World :=
  mkWorld (docStore w) (chatStore w) (uuidCount w) v (queryCount w)
          (faults w) (log w).
Definition with_queryCount (v : nat) (w : World) : World :=
  mkWorld (docStore w) (chatStore w) (uuidCount w) (clockCount w) v
          (faults w) (log w).
Definition with_faults (v : list (option string)) (w : World) : World :=
  mkWorld (docStore w) (chatStore w) (uuidCount w) (clockCount w)
          (queryCount w) v (log w).
Definition emit (e : Event) (w : World) : World :=
  mkWorld (docStore w) (chatStore w) (uuidCount w) (clockCount w)
          (queryCount w) (faults w) (log w ++ [e]).

(* ===================================================================== *)
(** ** [src/services/storageService.ts] *)
(* ===================================================================== *)

Module Storage.

(** [store.put(x)] on an object store with [keyPath: 'id']: upsert, the
    records staying in ascending key order. *)
Fixpoint put {A} (key : A -> string) (x : A) (l : list A) : list A :=
  match l with
  | [] => [x]
  | y :: r =>
      match String.compare (key x) (key y) with
      | Lt => x :: l
      | Eq => x :: r
      | Gt => y :: put key x r
      end
  end.

(** [store.delete(id)]. *)
Definition delete {A} (key : A -> string) (k : string) (l : list A) : list A :=
  filter (fun y => negb (String.eqb (key y) k)) l.

(** One request against the database: [initDB] and the request either
    succeed, and [op] is applied, or the promise rejects with the engine's
    error and the stores are untouched.  Each request consumes the head of
    [faults]; an empty list means that no fault is to come. *)
Definition request {A} (op : World -> A * World) : M World A :=
  fun w =>
    let w0 := with_faults (tl (faults w)) w in
    match hd None (faults w) with
    | Some msg => (Throw msg, w0)
    | None => let (a, w') := op w0 in (Ok a, w')
    end.

(** The coming request will succeed. *)
Definition available (w : World) : bool :=
  match hd None (faults w) with
  | Some _ => false
  | None => true
  end.

Definition saveDocument (doc : RailDocument.t) : M World unit :=
  request (fun w =>
    (tt, emit (EvPutDocument (RailDocument.id doc))
              (with_docStore (put RailDocument.id doc (docStore w)) w))).

Definition getAllDocuments : M World (list RailDocument.t) :=
  request (fun w => (docStore w, w)).

Definition deleteDocument (id : string) : M World unit :=
  request (fun w =>
    (tt, emit (EvDeleteDocument id)
              (with_docStore (delete RailDocument.id id (docStore w)) w))).

Definition saveChatMessage (message : ChatMessage.t) : M World unit :=
  request (fun w =>
    (tt, emit (EvPutChat (ChatMessage.id message))
              (with_chatStore (put ChatMessage.id message (chatStore w)) w))).

(** Messages persisted one after the other, as successive asks do. *)
Fixpoint persistAll (messages : list ChatMessage.t) : M World unit :=
  match messages with
  | [] => ret tt
  | m :: r => bind (saveChatMessage m) (fun _ => persistAll r)
  end.

(** The comparator of [history.sort(...)]. *)
Definition byTimestamp (a b : ChatMessage.t) : Z :=
  (ChatMessage.timestamp a - ChatMessage.timestamp b)%Z.

Definition getChatHistory : M World (list ChatMessage.t) :=
  request (fun w => (JsArray.sort byTimestamp (chatStore w), w)).

Definition clearChatHistory : M World unit :=
  request (fun w => (tt, emit EvClearChat (with_chatStore [] w))).

(** [initDB] (lines 9-28): a database is its object stores, by name, with
    their records.  [onupgradeneeded] creates each of the two stores when
    no store of that name exists. *)
Definition DOC_STORE : string := "documents".
Definition CHAT_STORE : string := "chat_history".

Definition containsStore {A} (db : list (string * list A)) (name : string)
  : bool :=
  existsb (fun st => String.eqb (fst st) name) db.

Definition createObjectStore {A} (db : list (string * list A))
  (name : string) : list (string * list A) :=
  (db ++ [(name, [])])%list.

Definition onupgradeneeded {A} (db : list (string * list A))
  : list (string * list A) :=
  let db1 := if negb (containsStore db DOC_STORE)
             then createObjectStore db DOC_STORE else db in
  if negb (containsStore db1 CHAT_STORE)
  then createObjectStore db1 CHAT_STORE else db1.

(** The records of an object store are in strictly ascending key order. *)
Definition keySorted {A} (key : A -> string) (l : list A) : Prop :=
  StronglySorted (fun a b => String.compare (key a) (key b) = Lt) l.

End Storage.

(* ===================================================================== *)
(** ** [src/unnamed/part_001]: the pdf service *)
(* ===================================================================== *)

Module PdfService.

Definition MAX_PAGES_CONTEXT : Z := 50.

Definition noPagesMarker : string :=
  "[Error: This PDF contains no readable pages.]".

Definition extractionError : string :=
  "Failed to extract text from PDF. The file might be corrupted, protected, or too complex for browser-based parsing.".

(** One turn of the page loop: what is appended to [fullText] for page [i],
    the inner [catch] substituting the failure marker. *)
Definition pageChunk (pdf : PdfDocument.t) (i : Z) : string :=
  match PdfDocument.getPageText pdf i with
  | Some pageText => "[Page " ++ showZ i ++ "] " ++ pageText ++ nl ++ nl
  | None =>
      "[Page " ++ showZ i ++ "] [Text extraction failed for this page]"
      ++ nl ++ nl
  end.

Definition truncationNote : string :=
  nl ++ nl ++ "[Note: Only the first " ++ showZ MAX_PAGES_CONTEXT
  ++ " pages were indexed to ensure browser stability. Please refer to the document viewer for later pages.]".

Definition extractTextFromPdf (env : Env) (file : File.t) : Outcome string :=
  match getDocument env (File.bytes file) with
  | None => Throw extractionError
  | Some pdf =>
      if (PdfDocument.numPages pdf =? 0)%Z then Ok noPagesMarker
      else
        let pagesToExtract := Z.min (PdfDocument.numPages pdf) MAX_PAGES_CONTEXT in
        let fullText :=
          fold_left (fun acc i => acc ++ pageChunk pdf (Z.of_nat i))
                    (seq 1 (Z.to_nat pagesToExtract)) "" in
        if (PdfDocument.numPages pdf >? MAX_PAGES_CONTEXT)%Z
        then Ok (fullText ++ truncationNote)
        else Ok fullText
  end.

End PdfService.

(* ===================================================================== *)
(** ** [src/unnamed/part_002]: the remote query *)
(* ===================================================================== *)

Module GeminiService.

Definition missingKey : string :=
  "Missing API Key. Please verify that you have added the API_KEY secret to your GitHub repository settings and successfully redeployed via GitHub Actions.".

Definition keyUsable (k : option string) : bool :=
  match k with
  | None => false
  | Some s => negb (String.eqb s "undefined") && negb (String.eqb s "")
  end.

Definition context (documents : list RailDocument.t) : string :=
  String.concat (nl ++ nl)
    (map (fun doc => "--- FILENAME: " ++ RailDocument.name doc ++ " ---" ++ nl
                     ++ RailDocument.content doc) documents).

Definition contents (question : string) (documents : list RailDocument.t)
  : string :=
  "Context:" ++ nl ++ context documents ++ nl ++ nl ++ "Question: " ++ question.

(** One call, the [n]-th of the session.  Every error of the inner [try] is
    thrown again with its message. *)
Definition queryStandards (env : Env) (question : string)
  (documents : list RailDocument.t) (n : nat) : Outcome GeminiResponse.t :=
  if negb (keyUsable (apiKey env)) then Throw missingKey
  else
    match generateContent env (contents question documents) n with
    | Throw e => Throw e
    | Ok None => Throw "Empty response received from the AI."
    | Ok (Some resultText) =>
        if String.eqb resultText "" then Throw "Empty response received from the AI."
        else jsonParse env (JsString.trim resultText)
    end.

End GeminiService.

(* ===================================================================== *)
(** ** [src/App.tsx] *)
(* ===================================================================== *)

Module App.
Import JsString.
Local Open Scope js_scope.

(** The React state of the component. *)
Record State := mkState {
  documents : list RailDocument.t;
  chatHistory : list ChatMessage.t;
  inputText : string;
  isProcessingFile : bool;
  isLoadingLibrary : bool;
  isAsking : bool;
  error : option string;
  activeClause : option ActiveClause.t
}.

Definition initial : State :=
  mkState [] [] "" false true false None None.

(** The component together with the browser it runs in. *)
Record Sys := mkSys { app : State; world : World }.

Definition liftW {A} (m : M World A) : M Sys A :=
  fun s => let (o, w) := m (world s) in (o, mkSys (app s) w).

Definition liftOutcome {A} (o : Outcome A) : M Sys A := fun s => (o, s).

Definition setApp (f : State -> State) : M Sys unit :=
  modify (fun s => mkSys (f (app s)) (world s)).

Definition setDocuments (f : list RailDocument.t -> list RailDocument.t) :=
  setApp (fun a => mkState (f (documents a)) (chatHistory a) (inputText a)
    (isProcessingFile a) (isLoadingLibrary a) (isAsking a) (error a)
    (activeClause a)).
Definition setChatHistory (f : list ChatMessage.t -> list ChatMessage.t) :=
  setApp (fun a => mkState (documents a) (f (chatHistory a)) (inputText a)
    (isProcessingFile a) (isLoadingLibrary a) (isAsking a) (error a)
    (activeClause a)).
Definition setInputText (v : string) :=
  setApp (fun a => mkState (documents a) (chatHistory a) v
    (isProcessingFile a) (isLoadingLibrary a) (isAsking a) (error a)
    (activeClause a)).
Definition setIsProcessingFile (v : bool) :=
  setApp (fun a => mkState (documents a) (chatHistory a) (inputText a)
    v (isLoadingLibrary a) (isAsking a) (error a) (activeClause a)).
Definition setIsLoadingLibrary (v : bool) :=
  setApp (fun a => mkState (documents a) (chatHistory a) (inputText a)
    (isProcessingFile a) v (isAsking a) (error a) (activeClause a)).
Definition setIsAsking (v : bool) :=
  setApp (fun a => mkState (documents a) (chatHistory a) (inputText a)
    (isProcessingFile a) (isLoadingLibrary a) v (error a) (activeClause a)).
Definition setError (v : option string) :=
  setApp (fun a => mkState (documents a) (chatHistory a) (inputText a)
    (isProcessingFile a) (isLoadingLibrary a) (isAsking a) v
    (activeClause a)).
Definition setActiveClause (v : option ActiveClause.t) :=
  setApp (fun a => mkState (documents a) (chatHistory a) (inputText a)
    (isProcessingFile a) (isLoadingLibrary a) (isAsking a) (error a) v).

(** [crypto.randomUUID()] and [new Date()]. *)
Definition newUUID (env : Env) : M Sys string :=
  liftW (fun w => (Ok (randomUUID env (uuidCount w)),
                   with_uuidCount (S (uuidCount w)) w)).
Definition newDate (env : Env) : M Sys Z :=
  liftW (fun w => (Ok (dateNow env (clockCount w)),
                   with_clockCount (S (clockCount w)) w)).

(** [await queryStandards(question, documents)]. *)
Definition queryStandards (env : Env) (question : string)
  (docs : list RailDocument.t) : M Sys GeminiResponse.t :=
  liftW (fun w =>
    (GeminiService.queryStandards env question docs (queryCount w),
     emit (EvQuery question docs) (with_queryCount (S (queryCount w)) w))).

(** *** Initialisation *)

(** [loadAppData] (lines 46-59): both reads succeed or the catch logs and
    leaves the state as it was. *)
Definition loadAppData : M Sys unit :=
  tryFinally
    (tryCatch
       (stored <- promiseAll (liftW Storage.getAllDocuments)
                             (liftW Storage.getChatHistory) ;;
        setDocuments (fun _ => fst stored) ;;;
        setChatHistory (fun _ => snd stored))
       (fun _ => ret tt))
    (setIsLoadingLibrary false).

(** The library in memory lists the records of the document store. *)
Definition mirrors (s : Sys) : Prop :=
  forall d, In d (documents (app s)) <-> In d (docStore (world s)).

(** *** The drop overlay: [handleDragEnter], [handleDragLeave], [handleDrop]
    (lines 125-152) *)

(** The ref [dragCounter] and the state [isDragging], which no other
    handler touches. *)
Record DragState := mkDrag {
  dragCounter : Z;
  isDragging : bool
}.

Definition initialDrag : DragState := mkDrag 0 false.

(** [hasItems]: [e.dataTransfer.items] holds at least one item. *)
Definition handleDragEnter (hasItems : bool) (d : DragState) : DragState :=
  mkDrag (dragCounter d + 1) (if hasItems then true else isDragging d).

Definition handleDragLeave (d : DragState) : DragState :=
  let counter := (dragCounter d - 1)%Z in
  mkDrag counter (if (counter =? 0)%Z then false else isDragging d).

(** The first statements of [handleDrop]. *)
Definition dropReset (d : DragState) : DragState := mkDrag 0 false.

Inductive DragEvent :=
| DragEnter (hasItems : bool)
| DragLeave
| DragOver
| Drop.

Definition drag (d : DragState) (e : DragEvent) : DragState :=
  match e with
  | DragEnter hasItems => handleDragEnter hasItems d
  | DragLeave => handleDragLeave d
  | DragOver => d
  | Drop => dropReset d
  end.

(** The pointer is inside the window after every event: it never left more
    elements than it entered. *)
Fixpoint inside (d : DragState) (events : list DragEvent) : Prop :=
  match events with
  | [] => True
  | e :: r => (0 <= dragCounter (drag d e))%Z /\ inside (drag d e) r
  end.

(** *** [cleanFileName] (lines 73-75) *)

Definition isDigit (c : ascii) : bool :=
  let n := N_of_ascii c in ((48 <=? n) && (n <=? 57))%N.

(** The run of digits at the head of [s]: its length and what follows. *)
Fixpoint skipDigits (s : string) : nat * string :=
  match s with
  | EmptyString => (O, EmptyString)
  | String c r =>
      if isDigit c then let (n, t) := skipDigits r in (S n, t) else (O, s)
  end.

(** The lookahead [(?=\.pdf|$)]. *)
Definition lookahead (s : string) : bool :=
  match s with
  | EmptyString => true
  | _ => isDotPdf (substring 0 4 s)
  end.

(** Length of the match of [\s\(\d+\)(?=\.pdf|$)] at the head of [s]. *)
Definition matchDup (s : string) : option nat :=
  match s with
  | String c0 (String c1 r) =>
      if isSpace c0 && Ascii.eqb c1 "("%char then
        let (n, t) := skipDigits r in
        match n, t with
        | S _, String c2 u =>
            if Ascii.eqb c2 ")"%char && lookahead u then Some (n + 3)%nat
            else None
        | _, _ => None
        end
      else None
  | _ => None
  end.

(** [name.replace(/\s\(\d+\)(?=\.pdf|$)/gi, '')]; [skip] units of the
    current match are still to be dropped. *)
Fixpoint cleanFrom (skip : nat) (s : string) : string :=
  match s with
  | EmptyString => EmptyString
  | String c r =>
      match skip with
      | S k => cleanFrom k r
      | O =>
          match matchDup s with
          | Some n => cleanFrom (n - 1) r
          | None => String c (cleanFrom O r)
          end
      end
  end.

Definition cleanFileName (name : string) : string := cleanFrom O name.

(** [s] holds no opening parenthesis; [s] is made of decimal digits. *)
Fixpoint noParen (s : string) : bool :=
  match s with
  | EmptyString => true
  | String c r => negb (Ascii.eqb c "("%char) && noParen r
  end.

Fixpoint allDigits (s : string) : bool :=
  match s with
  | EmptyString => true
  | String c r => isDigit c && allDigits r
  end.

(** *** Ingestion: [processFile] (lines 77-101), [handleFileUpload]
    (lines 103-123) *)

Definition quote : string := String (ascii_of_nat 34) EmptyString.

Definition tooLarge (name : string) : string :=
  "File " ++ quote ++ name ++ quote ++ " is too large (max 50MB).".

(** The two checks of [processFile]: neither the type nor the name says
    PDF; the file is above 50 MB. *)
Definition notPdf (file : File.t) : bool :=
  negb (String.eqb (File.type file) "application/pdf")
  && negb (endsWith (toLowerCase (File.name file)) ".pdf").

Definition oversize (file : File.t) : bool :=
  (File.size file >? 50 * 1024 * 1024)%Z.

Definition processFile (env : Env) (file : File.t)
  : M Sys (option RailDocument.t) :=
  if notPdf file then ret None
  else if oversize file then throw (tooLarge (File.name file))
  else
    text <- liftOutcome (PdfService.extractTextFromPdf env file) ;;
    let cleanedName := cleanFileName (File.name file) in
    id <- newUUID env ;;
    uploadDate <- newDate env ;;
    let doc := RailDocument.mk id cleanedName text (File.size file)
                 uploadDate (File.bytes file) in
    liftW (Storage.saveDocument doc) ;;;
    ret (Some doc).

(** The record [processFile] builds from [file] and the extracted [text]
    when the world is [w]: the next identifier and the next clock reading. *)
Definition builtDocument (env : Env) (file : File.t) (text : string)
  (w : World) : RailDocument.t :=
  RailDocument.mk (randomUUID env (uuidCount w))
    (cleanFileName (File.name file)) text (File.size file)
    (dateNow env (clockCount w)) (File.bytes file).

(** A file [processFile] takes in: a PDF by type or name, within the size
    limit, that pdf.js can decode. *)
Definition ingestible (env : Env) (file : File.t) : Prop :=
  notPdf file = false /\ oversize file = false
  /\ getDocument env (File.bytes file) <> None.

(** The text [extractTextFromPdf] gives for [file], empty if it throws. *)
Definition textOf (env : Env) (file : File.t) : string :=
  match PdfService.extractTextFromPdf env file with
  | Ok text => text
  | Throw _ => ""
  end.

(** The [for] loop of [handleFileUpload], [newDocs] being the array built
    so far. *)
Fixpoint processFiles (env : Env) (files : list File.t)
  (newDocs : list RailDocument.t) : M Sys (list RailDocument.t) :=
  match files with
  | [] => ret newDocs
  | file :: rest =>
      doc <- processFile env file ;;
      processFiles env rest
        (match doc with Some d => (newDocs ++ [d])%list | None => newDocs end)
  end.

Definition handleFileUpload (env : Env) (files : list File.t) : M Sys unit :=
  match files with
  | [] => ret tt
  | _ =>
      setIsProcessingFile true ;;;
      setError None ;;;
      tryFinally
        (tryCatch
           (newDocs <- processFiles env files [] ;;
            setDocuments (fun prev => (prev ++ newDocs)%list))
           (fun err => setError (Some (orElse err "Error processing PDF"))))
        (setIsProcessingFile false)
  end.

(** What a drop carries: a file, or a directory with its entries. *)
Inductive FileSystemEntry :=
| FileEntry (file : File.t)
| DirectoryEntry (entries : list FileSystemEntry).

(** [scanFiles] (lines 188-206): the PDF files below [item], by name. *)
Fixpoint scanFiles (item : FileSystemEntry) : list File.t :=
  match item with
  | FileEntry file =>
      if endsWith (toLowerCase (File.name file)) ".pdf" then [file] else []
  | DirectoryEntry entries => flat_map scanFiles entries
  end.


(** [handleDrop] (lines 148-186); [None] is an item without entry. *)
Definition handleDrop (env : Env) (items : list (option FileSystemEntry))
  : M Sys unit :=
  setIsProcessingFile true ;;;
  setError None ;;;
  tryFinally
    (tryCatch
       (let filesToProcess :=
          flat_map (fun item => match item with
                                | Some entry => scanFiles entry
                                | None => []
                                end) items in
        newDocs <- processFiles env filesToProcess [] ;;
        match newDocs, filesToProcess with
        | _ :: _, _ => setDocuments (fun prev => (prev ++ newDocs)%list)
        | [], [] => setError (Some "No PDF files found.")
        | [], _ :: _ => ret tt
        end)
       (fun err => setError (Some (orElse err "Failed to process items."))))
    (setIsProcessingFile false).

(** *** Asking: [handleAsk] (lines 208-243) *)

(** The condition of the early [return]. *)
Definition askGuard (a : State) : bool :=
  String.eqb (trim (inputText a)) ""
  || isAsking a
  || match documents a with [] => true | _ => false end.

Definition handleAsk (env : Env) : M Sys unit :=
  s <- get ;;
  let a := app s in
  if askGuard a then ret tt
  else
    id <- newUUID env ;;
    ts <- newDate env ;;
    let userMsg := ChatMessage.mk id user (inputText a) None ts in
    setChatHistory (fun prev => (prev ++ [userMsg])%list) ;;;
    liftW (Storage.saveChatMessage userMsg) ;;;
    let currentQuery := inputText a in
    setInputText "" ;;;
    setIsAsking true ;;;
    setError None ;;;
    tryFinally
      (tryCatch
         (result <- queryStandards env currentQuery (documents a) ;;
          id' <- newUUID env ;;
          ts' <- newDate env ;;
          let assistantMsg :=
            ChatMessage.mk id' assistant (GeminiResponse.answer result)
              (Some (GeminiResponse.citations result)) ts' in
          setChatHistory (fun prev => (prev ++ [assistantMsg])%list) ;;;
          liftW (Storage.saveChatMessage assistantMsg))
         (fun err => setError (Some (orElse err "Failed to get an answer."))))
      (setIsAsking false).

(** The [userMsg] that [handleAsk] builds in state [s]. *)
Definition userMessage (env : Env) (s : Sys) : ChatMessage.t :=
  ChatMessage.mk (randomUUID env (uuidCount (world s))) user
    (inputText (app s)) None (dateNow env (clockCount (world s))).

Definition handleClearChat : M Sys unit :=
  liftW Storage.clearChatHistory ;;;
  setChatHistory (fun _ => []).

Definition removeDocument (id : string) : M Sys unit :=
  tryCatch
    (liftW (Storage.deleteDocument id) ;;;
     setDocuments (filter (fun d => negb (String.eqb (RailDocument.id d) id))))
    (fun _ => ret tt).

(** *** Citations: [handleCitationClick] (lines 259-292) *)

Definition target (citation : Citation.t) : string :=
  trim (toLowerCase (Citation.standard citation)).

Definition targetNoExt (citation : Citation.t) : string :=
  stripPdf (target citation).

(** The predicate of [documents.find]. *)
Definition isExact (citation : Citation.t) (d : RailDocument.t) : bool :=
  let docName := toLowerCase (RailDocument.name d) in
  let docNameNoExt := stripPdf docName in
  String.eqb docName (target citation)
  || String.eqb docNameNoExt (targetNoExt citation).

(** The predicate of [documents.filter]. *)
Definition isCandidate (citation : Citation.t) (d : RailDocument.t) : bool :=
  let docNameNoExt := stripPdf (toLowerCase (RailDocument.name d)) in
  includes docNameNoExt (targetNoExt citation)
  || includes (targetNoExt citation) docNameNoExt.

Definition lengthGap (citation : Citation.t) (d : RailDocument.t) : Z :=
  Z.abs (len (RailDocument.name d) - len (Citation.standard citation)).

(** The comparator of [candidates.sort]. *)
Definition byLengthGap (citation : Citation.t) (a b : RailDocument.t) : Z :=
  (lengthGap citation a - lengthGap citation b)%Z.

(** The value of [doc] when the lookup of [handleCitationClick] is over. *)
Definition findDocument (citation : Citation.t)
  (docs : list RailDocument.t) : option RailDocument.t :=
  match find (isExact citation) docs with
  | Some d => Some d
  | None =>
      let candidates := filter (isCandidate citation) docs in
      match candidates with
      | [] => None
      | _ => hd_error (JsArray.sort (byLengthGap citation) candidates)
      end
  end.

Definition notFound (citation : Citation.t) : string :=
  "Standard " ++ quote ++ Citation.standard citation ++ quote
  ++ " not found in your local library.".

(** [Math.max(1, citation.page || 1)]: an absent page and page 0 are
    falsy. *)
Definition openingPage (citation : Citation.t) : Z :=
  Z.max 1 (match Citation.page citation with
           | None => 1
           | Some p => if (p =? 0)%Z then 1 else p
           end).

Definition handleCitationClick (citation : Citation.t) : M Sys unit :=
  setError None ;;;
  s <- get ;;
  match findDocument citation (documents (app s)) with
  | None => setError (Some (notFound citation))
  | Some doc =>
      setActiveClause
        (Some (ActiveClause.mk (RailDocument.name doc)
                 (Citation.clause citation) (RailDocument.pdfData doc)
                 (openingPage citation)))
  end.

End App.

(* ===================================================================== *)
(** ** [src/unnamed/part_000]: the viewer overlay [ClauseModal] *)
(* ===================================================================== *)

Module ClauseModal.
Local Open Scope Q_scope.

(** *** Window geometry *)

Record Geometry := mkGeometry {
  pos : Q * Q;             (* x, y *)
  size : Q * Q;            (* width, height *)
  isDragging : bool;
  isResizing : bool;
  dragStart : Q * Q;       (* the ref [dragStart]: x, y *)
  sizeStart : Q * Q        (* the ref [sizeStart]: w, h *)
}.

Definition width (g : Geometry) : Q := fst (size g).
Definition height (g : Geometry) : Q := snd (size g).

(** The [useState]/[useRef] initial values. *)
Definition initialGeometry : Geometry :=
  mkGeometry (0, 0) (900, 800) false false (0, 0) (0, 0).

(** The effect on [isOpen] (lines 41-51), for a viewport of [innerWidth]
    by [innerHeight]. *)
Definition openEffect (innerWidth innerHeight : Q) (g : Geometry) : Geometry :=
  let w := Qmin (innerWidth * (9 # 10)) 1000 in
  let h := Qmin (innerHeight * (9 # 10)) 850 in
  mkGeometry ((innerWidth - w) / 2, (innerHeight - h) / 2) (w, h)
             (isDragging g) (isResizing g) (dragStart g) (sizeStart g).

(** [handleMouseDown] (lines 142-147); [onHandle]: the target is inside
    [.drag-handle]. *)
Definition handleMouseDown (onHandle : bool) (clientX clientY : Q)
  (g : Geometry) : Geometry :=
  if onHandle then
    mkGeometry (pos g) (size g) true (isResizing g)
               (clientX - fst (pos g), clientY - snd (pos g)) (sizeStart g)
  else g.

Definition handleResizeStart (clientX clientY : Q) (g : Geometry) : Geometry :=
  mkGeometry (pos g) (size g) (isDragging g) true (clientX, clientY) (size g).

Definition handleMouseMove (clientX clientY : Q) (g : Geometry) : Geometry :=
  let g1 :=
    if isDragging g then
      mkGeometry (clientX - fst (dragStart g), clientY - snd (dragStart g))
                 (size g) (isDragging g) (isResizing g) (dragStart g)
                 (sizeStart g)
    else g in
  if isResizing g then
    let deltaX := clientX - fst (dragStart g) in
    let deltaY := clientY - snd (dragStart g) in
    mkGeometry (pos g1)
               (Qmax 400 (fst (sizeStart g) + deltaX),
                Qmax 300 (snd (sizeStart g) + deltaY))
               (isDragging g1) (isResizing g1) (dragStart g1) (sizeStart g1)
  else g1.

Definition handleMouseUp (g : Geometry) : Geometry :=
  mkGeometry (pos g) (size g) false false (dragStart g) (sizeStart g).

(** The pointer events of a session, after the opening effect. *)
Inductive PointerEvent :=
| MouseDown (onHandle : bool) (clientX clientY : Q)
| ResizeStart (clientX clientY : Q)
| MouseMove (clientX clientY : Q)
| MouseUp.

Definition pointer (e : PointerEvent) (g : Geometry) : Geometry :=
  match e with
  | MouseDown h cx cy => handleMouseDown h cx cy g
  | ResizeStart cx cy => handleResizeStart cx cy g
  | MouseMove cx cy => handleMouseMove cx cy g
  | MouseUp => handleMouseUp g
  end.

Definition session (innerWidth innerHeight : Q) (events : list PointerEvent)
  : Geometry :=
  fold_left (fun g e => pointer e g) events
            (openEffect innerWidth innerHeight initialGeometry).

(** The size floor. *)
Definition aboveFloor (g : Geometry) : Prop :=
  400 <= width g /\ 300 <= height g.

(** *** Page and zoom *)

Record View := mkView {
  currentPage : Z;
  totalPages : Z;
  loading : bool;
  error : option string;
  scale : Q
}.

(** [useState(Math.max(1, initialPage))] and the other initial values. *)
Definition initialView (initialPage : Z) : View :=
  mkView (Z.max 1 initialPage) 0 true None 1.

Definition setCurrentPage (f : Z -> Z) (v : View) : View :=
  mkView (f (currentPage v)) (totalPages v) (loading v) (error v) (scale v).
Definition setScale (f : Q -> Q) (v : View) : View :=
  mkView (currentPage v) (totalPages v) (loading v) (error v) (f (scale v)).
Definition setLoading (b : bool) (v : View) : View :=
  mkView (currentPage v) (totalPages v) b (error v) (scale v).
Definition setError (e : option string) (v : View) : View :=
  mkView (currentPage v) (totalPages v) (loading v) e (scale v).
Definition setTotalPages (n : Z) (v : View) : View :=
  mkView (currentPage v) n (loading v) (error v) (scale v).

(** The clamp of [renderPage] and of [loadPdf]. *)
Definition clampPage (num numPages : Z) : Z := Z.max 1 (Z.min num numPages).

(** [loadPdf] once the document is decoded: the React side. *)
Definition loaded (initialPage numPages : Z) (v : View) : View :=
  setCurrentPage (fun _ => clampPage initialPage numPages)
                 (setTotalPages numPages v).

Definition inRange (v : View) : Prop :=
  (1 <= currentPage v <= totalPages v)%Z.

(** The [onClick] updaters and the [disabled] attributes of the two page
    buttons (lines 261-284). *)
Definition previousPage (v : View) : View :=
  setCurrentPage (fun prev => Z.max 1 (prev - 1)%Z) v.
Definition nextPage (v : View) : View :=
  setCurrentPage (fun prev => Z.min (totalPages v) (prev + 1)%Z) v.
Definition previousDisabled (v : View) : bool :=
  (currentPage v <=? 1)%Z || loading v.
Definition nextDisabled (v : View) : bool :=
  (currentPage v >=? totalPages v)%Z || loading v.

(** A click reaches the updater only when the button is enabled. *)
Definition clickPrevious (v : View) : View :=
  if previousDisabled v then v else previousPage v.
Definition clickNext (v : View) : View :=
  if nextDisabled v then v else nextPage v.

Definition zoomOut (v : View) : View :=
  setScale (fun prev => Qmax (1 # 2) (prev - (1 # 4))) v.
Definition zoomIn (v : View) : View :=
  setScale (fun prev => Qmin 4 (prev + (1 # 4))) v.
Definition resetZoom (v : View) : View := setScale (fun _ => 1) v.

(** The three zoom buttons (lines 226, 238, 289). *)
Inductive ZoomEvent := ZoomOut | ZoomIn | ResetZoom.

Definition zoom (v : View) (e : ZoomEvent) : View :=
  match e with
  | ZoomOut => zoomOut v
  | ZoomIn => zoomIn v
  | ResetZoom => resetZoom v
  end.

(** What moves the page display once the document is loaded: the two
    buttons, and a render that completes ([setLoading(false)]). *)
Inductive NavEvent := Previous | Next | Rendered.

Definition navigate (e : NavEvent) (v : View) : View :=
  match e with
  | Previous => clickPrevious v
  | Next => clickNext v
  | Rendered => setLoading false v
  end.

(** The page display after [loadPdf] succeeded on a document of [numPages]
    pages and the [events] went by. *)
Definition browse (initialPage numPages : Z) (events : list NavEvent) : View :=
  fold_left (fun v e => navigate e v) events
            (loaded initialPage numPages (initialView initialPage)).

(** *** Rendering *)

(** A render task of pdf.js, as the component can observe it: [page.render]
    creates it running; it paints onto the canvas while it runs; it ends
    finished, failed, or cancelled by [cancel()], which stops its painting
    and rejects its promise with a [RenderingCancelledException]. *)
Inductive Status := Running | Finished | Failed | Cancelled.

Record Task := mkTask {
  taskPage : Z;
  taskScale : Q;
  status : Status
}.

(** The component between two turns of the event loop. *)
Record Render := mkRender {
  view : View;
  pdfDoc : option Z;             (* [pdfDocRef.current], by its [numPages] *)
  renderTaskRef : option nat;    (* [renderTaskRef.current], a task id *)
  tasks : list Task;             (* the tasks created so far; id = index *)
  pendingPages : list (Z * Q);   (* calls suspended at [await getPage] *)
  awaiting : list nat;           (* calls suspended at [await promise] *)
  canvas : option (nat * bool)   (* whose pixels it holds; [true]: the
                                    whole page *)
}.

Definition initialRender (initialPage : Z) : Render :=
  mkRender (initialView initialPage) None None [] [] [] None.

Definition withView (f : View -> View) (r : Render) : Render :=
  mkRender (f (view r)) (pdfDoc r) (renderTaskRef r) (tasks r)
           (pendingPages r) (awaiting r) (canvas r).

Definition statusOf (ts : list Task) (t : nat) : option Status :=
  option_map status (nth_error ts t).

Fixpoint setStatus (t : nat) (st : Status) (ts : list Task) : list Task :=
  match ts, t with
  | [], _ => []
  | k :: r, O => mkTask (taskPage k) (taskScale k) st :: r
  | k :: r, S t' => k :: setStatus t' st r
  end.

Definition isRunning (ts : list Task) (t : nat) : bool :=
  match statusOf ts t with Some Running => true | _ => false end.

(** [renderTaskRef.current.cancel()], guarded by [if (renderTaskRef.current)]:
    without effect on a task that is over. *)
Definition cancelCurrent (r : Render) : list Task :=
  match renderTaskRef r with
  | Some t => if isRunning (tasks r) t then setStatus t Cancelled (tasks r)
              else tasks r
  | None => tasks r
  end.

Fixpoint removeNth {A} (i : nat) (l : list A) : list A :=
  match l, i with
  | [], _ => []
  | _ :: r, O => r
  | x :: r, S i' => x :: removeNth i' r
  end.

Definition renderFailed (pageNum : Z) : string :=
  ("Failed to render page " ++ showZ pageNum ++ ".")%string.

(** The [catch] of [renderPage], by the [name] of what was thrown. *)
Definition catchRender (name : string) (pageNum : Z) (v : View) : View :=
  if String.eqb name "RenderingCancelledException" then v
  else setLoading false (setError (Some (renderFailed pageNum)) v).

(** [renderPage(num, currentScale)] (lines 53-93) up to
    [await getPage(pageNum)]. *)
Definition renderPage (num : Z) (currentScale : Q) (r : Render) : Render :=
  match pdfDoc r with
  | None => r
  | Some numPages =>
      let pageNum := clampPage num numPages in
      mkRender (view r) (pdfDoc r) (renderTaskRef r) (cancelCurrent r)
               (pendingPages r ++ [(pageNum, currentScale)]) (awaiting r)
               (canvas r)
  end.

(** [getPage] resolves for the [i]-th suspended call (lines 65-85): the
    canvas, whose 2d context is taken to exist, is given its dimensions,
    which clears it, the render task is created and stored in the ref, and
    the call suspends on the task's promise. *)
Definition pageResolved (i : nat) (r : Render) : Render :=
  match nth_error (pendingPages r) i with
  | None => r
  | Some (pageNum, currentScale) =>
      let id := List.length (tasks r) in
      mkRender (view r) (pdfDoc r) (Some id)
               (tasks r ++ [mkTask pageNum currentScale Running])
               (removeNth i (pendingPages r)) (awaiting r ++ [id]) None
  end.

(** [getPage] rejects for the [i]-th suspended call. *)
Definition pageRejected (i : nat) (r : Render) : Render :=
  match nth_error (pendingPages r) i with
  | None => r
  | Some (pageNum, _) =>
      mkRender (catchRender "Error" pageNum (view r)) (pdfDoc r)
               (renderTaskRef r) (tasks r) (removeNth i (pendingPages r))
               (awaiting r) (canvas r)
  end.

(** A running task paints part of its page, paints the rest and finishes,
    or fails. *)
Definition paint (t : nat) (r : Render) : Render :=
  if isRunning (tasks r) t then
    mkRender (view r) (pdfDoc r) (renderTaskRef r) (tasks r)
             (pendingPages r) (awaiting r) (Some (t, false))
  else r.
Definition finish (t : nat) (r : Render) : Render :=
  if isRunning (tasks r) t then
    mkRender (view r) (pdfDoc r) (renderTaskRef r)
             (setStatus t Finished (tasks r))
             (pendingPages r) (awaiting r) (Some (t, true))
  else r.
Definition fail (t : nat) (r : Render) : Render :=
  if isRunning (tasks r) t then
    mkRender (view r) (pdfDoc r) (renderTaskRef r)
             (setStatus t Failed (tasks r))
             (pendingPages r) (awaiting r) (canvas r)
  else r.

(** The call suspended on task [t] resumes once the task is over: after
    [await renderTask.promise] on success, in the [catch] otherwise. *)
Definition settle (t : nat) (r : Render) : Render :=
  if existsb (Nat.eqb t) (awaiting r) then
    match nth_error (tasks r) t with
    | Some (mkTask pageNum _ st) =>
        let resumed (v : View) :=
          mkRender v (pdfDoc r) (renderTaskRef r) (tasks r) (pendingPages r)
                   (filter (fun t' => negb (Nat.eqb t t')) (awaiting r))
                   (canvas r) in
        match st with
        | Running => r
        | Finished => resumed (setLoading false (view r))
        | Cancelled =>
            resumed (catchRender "RenderingCancelledException" pageNum (view r))
        | Failed => resumed (catchRender "Error" pageNum (view r))
        end
    | None => r
    end
  else r.

(** [loadPdf] (lines 98-121): its first statements, its success branch and
    its [catch]. *)
Definition beginLoad (r : Render) : Render :=
  withView (fun v => setError None (setLoading true v)) r.
Definition loadSucceeded (initialPage numPages : Z) (r : Render) : Render :=
  let r1 :=
    mkRender (loaded initialPage numPages (view r)) (Some numPages)
             (renderTaskRef r) (tasks r) (pendingPages r) (awaiting r)
             (canvas r) in
  renderPage (clampPage initialPage numPages) (scale (view r)) r1.
Definition loadFailed (message : string) (r : Render) : Render :=
  withView (fun v => setLoading false
    (setError (Some ("Could not load PDF document: " ++ message)%string) v)) r.

(** The cleanup of the loading effect (lines 125-133). *)
Definition cleanup (r : Render) : Render :=
  mkRender (view r) None (renderTaskRef r) (cancelCurrent r)
           (pendingPages r) (awaiting r) (canvas r).

(** What can happen in one turn of the event loop. *)
Inductive RenderEvent :=
| BeginLoad
| LoadSucceeded (initialPage numPages : Z)
| LoadFailed (message : string)
| Cleanup
| RenderPage (num : Z) (currentScale : Q)
| PageResolved (i : nat)
| PageRejected (i : nat)
| Paint (t : nat)
| Finish (t : nat)
| Fail (t : nat)
| Settle (t : nat).

Definition step (r : Render) (e : RenderEvent) : Render :=
  match e with
  | BeginLoad => beginLoad r
  | LoadSucceeded p n => loadSucceeded p n r
  | LoadFailed m => loadFailed m r
  | Cleanup => cleanup r
  | RenderPage num sc => renderPage num sc r
  | PageResolved i => pageResolved i r
  | PageRejected i => pageRejected i r
  | Paint t => paint t r
  | Finish t => finish t r
  | Fail t => fail t r
  | Settle t => settle t r
  end.

Definition run (initialPage : Z) (events : list RenderEvent) : Render :=
  fold_left step events (initialRender initialPage).

(** A click on a zoom button: the scale is updated and, when it changed,
    the loading effect, which depends on [scale], runs again: its cleanup,
    then the first statements of [loadPdf].  An unchanged scale renders
    nothing anew. *)
Definition clickZoom (e : ZoomEvent) (r : Render) : Render :=
  let v' := zoom (view r) e in
  if Qeq_bool (scale v') (scale (view r)) then r
  else beginLoad (cleanup (withView (fun _ => v') r)).

(** The viewer as a whole: between two turns of the event loop the user
    clicks a zoom button or the render machine moves. *)
Inductive ViewerEvent := Click (e : ZoomEvent) | Turn (e : RenderEvent).

Definition stepViewer (r : Render) (e : ViewerEvent) : Render :=
  match e with
  | Click z => clickZoom z r
  | Turn t => step r t
  end.

Definition viewer (initialPage : Z) (events : list ViewerEvent) : Render :=
  fold_left stepViewer events (initialRender initialPage).

(** Every document loaded in the run has [numPages] pages. *)
Definition loadsOnly (numPages : Z) (events : list RenderEvent) : bool :=
  forallb (fun e => match e with
                    | LoadSucceeded _ n => (n =? numPages)%Z
                    | _ => true
                    end) events.

(** Every page asked of pdf.js, pending or rendered, is one of the
    document's. *)
Definition pagesWithin (numPages : Z) (r : Render) : Prop :=
  Forall (fun p => (1 <= fst p <= numPages)%Z) (pendingPages r)
  /\ Forall (fun k => (1 <= taskPage k <= numPages)%Z) (tasks r).

(** The invariant of the render machine: the ref holds the newest task; a
    whole page on the canvas comes from a finished task; pixels of a
    cancelled task can only be those of the newest task. *)
Definition refIsNewest (r : Render) : Prop :=
  forall t, renderTaskRef r = Some t -> S t = List.length (tasks r).
Definition wholePageFinished (r : Render) : Prop :=
  forall t, canvas r = Some (t, true) ->
            statusOf (tasks r) t = Some Finished.
Definition staleOnlyNewest (r : Render) : Prop :=
  forall t b, canvas r = Some (t, b) ->
              statusOf (tasks r) t = Some Cancelled ->
              S t = List.length (tasks r).
Definition wellFormed (r : Render) : Prop :=
  refIsNewest r /\ wholePageFinished r /\ staleOnlyNewest r.

(** No error is shown and no task has failed. *)
Definition quiet (r : Render) : Prop :=
  error (view r) = None
  /\ forall t, statusOf (tasks r) t <> Some Failed.

(** An event that reports a genuine failure of pdf.js. *)
Definition isFailure (e : RenderEvent) : bool :=
  match e with
  | LoadFailed _ | PageRejected _ | Fail _ => true
  | _ => false
  end.

End ClauseModal.

(* ===================================================================== *)
(** ** The citation resolver as the specification words it *)
(* ===================================================================== *)

Module ResolverSpec.
Import JsString.

(** "normalize (lowercase, trim, strip a trailing .pdf suffix)". *)
Definition normalize (s : string) : string :=
  stripPdf (trim (toLowerCase s)).

(** How the code prepares a stored name: lower case and no extension, the
    white space staying. *)
Definition normalizeStored (s : string) : string :=
  stripPdf (toLowerCase s).

Section Resolves.
(** [normDoc] is what is done to a stored document's name. *)
Variable normDoc : string -> string.
Variable citation : Citation.t.

(** "exact match on normalized full name" *)
Definition exact (d : RailDocument.t) : bool :=
  String.eqb (normDoc (RailDocument.name d))
             (normalize (Citation.standard citation)).

(** "normalized name is a substring of the normalized citation name or vice
    versa" *)
Definition candidate (d : RailDocument.t) : bool :=
  includes (normalize (Citation.standard citation))
           (normDoc (RailDocument.name d))
  || includes (normDoc (RailDocument.name d))
              (normalize (Citation.standard citation)).

(** "the one whose original name length is closest to the original citation
    string's length" *)
Definition closest (candidates : list RailDocument.t) (d : RailDocument.t)
  : Prop :=
  In d candidates
  /\ forall c, In c candidates ->
       (App.lengthGap citation d <= App.lengthGap citation c)%Z.

(** The two passes: [r] is an answer the algorithm allows on [docs]. *)
Definition resolves (docs : list RailDocument.t)
  (r : option RailDocument.t) : Prop :=
  if existsb exact docs
  then exists d, r = Some d /\ In d docs /\ exact d = true
  else match r with
       | Some d => closest (filter candidate docs) d
       | None => filter candidate docs = []
       end.
End Resolves.

(** The algorithm of the specification: both sides normalized alike. *)
Definition specResolves := resolves normalize.

(** The algorithm with stored names prepared as the code prepares them. *)
Definition storedResolves := resolves normalizeStored.

End ResolverSpec.

(* ===================================================================== *)
(** ** Sample data *)
(* ===================================================================== *)

Module Sample.
Import App.

(** pdf.js on the sample files: no bytes cannot be decoded, the single byte
    0 decodes to a document without pages, anything else to two pages. *)
Definition twoPages : PdfDocument.t :=
  PdfDocument.mk 2 (fun i => if (i =? 1)%Z then Some "Track gauge" else None).

Definition decode (data : list byte) : option PdfDocument.t :=
  match data with
  | [] => None
  | [x00] => Some (PdfDocument.mk 0 (fun _ => None))
  | _ => Some twoPages
  end.

(** No API key is configured: every remote query fails. *)
Definition env : Env :=
  mkEnv decode
        (fun n => "uuid-" ++ showZ (Z.of_nat n))
        (fun n => (1700000000000 + Z.of_nat n)%Z)
        None
        (fun _ _ => Ok None)
        (fun _ => Throw "Unexpected end of JSON input").

(** A key is configured and the model answers with one citation. *)
Definition reply : GeminiResponse.t :=
  GeminiResponse.mk "See clause 3.2.1."
    [Citation.mk "NR-L2-TRK-001.pdf" "3.2.1" (Some 4%Z)].

Definition answering : Env :=
  mkEnv decode
        (fun n => "uuid-" ++ showZ (Z.of_nat n))
        (fun n => (1700000000000 + Z.of_nat n)%Z)
        (Some "key")
        (fun _ _ => Ok (Some " {...} "))
        (fun _ => Ok reply).

Definition emptyWorld : World := mkWorld [] [] 0 0 0 [] [].

Definition start : Sys := mkSys initial emptyWorld.

Definition good : File.t := File.mk "a (1).pdf" "application/pdf" [x01].
Definition corrupt : File.t := File.mk "b.pdf" "application/pdf" [].
Definition later : File.t := File.mk "c.pdf" "application/pdf" [x02].
Definition noPages : File.t := File.mk "empty.PDF" "" [x00].

(** The state in which the loop of [handleFileUpload] starts, and the one
    it has reached when [good] is ingested. *)
Definition uploading : Sys :=
  snd (bind (setIsProcessingFile true) (fun _ => setError None) start).
Definition afterGood : Sys := snd (processFiles env [good] [] uploading).
Definition ingested : list RailDocument.t :=
  match fst (processFiles env [good] [] uploading) with
  | Ok docs => docs
  | Throw _ => []
  end.

Definition trk : RailDocument.t :=
  RailDocument.mk "id-1" "NR-L2-TRK-001.pdf" "[Page 1] Track" 3 0 [x01].
Definition trk2 : RailDocument.t :=
  RailDocument.mk "id-2" "NR-L2-TRK-001 Issue 2.pdf" "[Page 1] Track" 3 0
    [x02].

Definition cite (p : option Z) : Citation.t :=
  Citation.mk "NR-L2-TRK-001.pdf" "3.2.1" p.

Definition answered : ChatMessage.t :=
  ChatMessage.mk "m-1" assistant "See clause 3.2.1." (Some [cite (Some 4)]) 10.

(** Two documents in the library, one answer citing the first, and a
    question typed in. *)
Definition library : Sys :=
  mkSys (mkState [trk; trk2] [answered] "What is the gauge?" false false
           false None None)
        (mkWorld [trk; trk2] [answered] 0 0 0 [] []).

(** The first document is deleted, then the citation of the answer is
    activated. *)
Definition afterDelete : Sys := snd (removeDocument "id-1" library).
Definition afterClick : Sys :=
  snd (handleCitationClick (cite (Some 4)) afterDelete).

(** A batch whose second file is corrupt. *)
Definition afterBatch : Sys :=
  snd (handleFileUpload env [good; corrupt; later] start).

Definition first : ChatMessage.t := ChatMessage.mk "b" user "one" None 10.
Definition second : ChatMessage.t := ChatMessage.mk "a" user "two" None 20.
Definition tied : ChatMessage.t := ChatMessage.mk "a" user "two" None 10.

(** A new revision of the first document, under the same identifier. *)
Definition revised : RailDocument.t :=
  RailDocument.mk "id-1" "NR-L2-TRK-001.pdf" "[Page 1] Track, issue 2" 4 5
    [x03].

(** The library when the storage engine is about to refuse a request. *)
Definition refusing : Sys :=
  mkSys (app library)
        (mkWorld [trk; trk2] [answered] 0 0 0 [Some "QuotaExceededError"] []).

(** The viewer with a five-page document loaded and page 1 rendering. *)
Definition rendering : ClauseModal.Render :=
  ClauseModal.run 1
    [ClauseModal.BeginLoad; ClauseModal.LoadSucceeded 1 5;
     ClauseModal.PageResolved 0].

(** Two messages of the same millisecond are persisted, then the history
    is read back. *)
Definition reloaded : Outcome (list ChatMessage.t) :=
  fst (Storage.getChatHistory
         (snd (Storage.persistAll [first; tied] emptyWorld))).

(** A session of the viewer: page 1 starts rendering, a request for page 2
    cancels it, page 2 is rendered. *)
Definition superseded : list ClauseModal.RenderEvent :=
  [ClauseModal.BeginLoad; ClauseModal.LoadSucceeded 1 5;
   ClauseModal.PageResolved 0; ClauseModal.Paint 0;
   ClauseModal.RenderPage 2 1; ClauseModal.Settle 0;
   ClauseModal.PageResolved 0; ClauseModal.Finish 1; ClauseModal.Settle 1].



End Sample.

(* ===================================================================== *)
(** * Properties *)
(* ===================================================================== *)

(** ** Sorting *)

Section SortFacts.
Context {A : Type} (key : A -> Z).
Let cmp (a b : A) : Z := (key a - key b)%Z.

Lemma insert_perm (x : A) (l : list A) :
  Permutation (JsArray.insert cmp x l) (x :: l).
Proof.
  induction l as [|y r IH]; simpl; [reflexivity|].
  destruct (cmp x y <=? 0)%Z; [reflexivity|].
  rewrite IH. apply perm_swap.
Qed.

Lemma sort_perm (l : list A) : Permutation (JsArray.sort cmp l) l.
Proof.
  induction l as [|x r IH]; simpl; [reflexivity|].
  rewrite insert_perm. now constructor.
Qed.

Lemma insert_sorted (x : A) (l : list A) :
  StronglySorted (JsArray.keyLe key) l -> StronglySorted (JsArray.keyLe key) (JsArray.insert cmp x l).
Proof.
  induction l as [|y r IH]; intros Hs; simpl.
  - repeat constructor.
  - inversion Hs as [|? ? Hr Hy]; subst.
    destruct (cmp x y <=? 0)%Z eqn:E; unfold cmp in E.
    + constructor; [assumption|].
      constructor; [unfold JsArray.keyLe; lia|].
      eapply Forall_impl; [|exact Hy].
      unfold JsArray.keyLe; intros; lia.
    + constructor; [now apply IH|].
      eapply Permutation_Forall; [symmetry; apply insert_perm|].
      constructor; [unfold JsArray.keyLe; lia|assumption].
Qed.

Lemma sort_sorted (l : list A) : StronglySorted (JsArray.keyLe key) (JsArray.sort cmp l).
Proof.
  induction l as [|x r IH]; simpl; [constructor|].
  now apply insert_sorted.
Qed.

(** The head of the sorted array is a least element of the array. *)
Lemma sort_head_least (l : list A) (d : A) :
  hd_error (JsArray.sort cmp l) = Some d ->
  In d l /\ forall c, In c l -> (key d <= key c)%Z.
Proof.
  intros Hd.
  pose proof (sort_sorted l) as Hs.
  pose proof (sort_perm l) as Hp.
  destruct (JsArray.sort cmp l) as [|y r]; [discriminate|].
  injection Hd as ->.
  split.
  - eapply Permutation_in; [exact Hp|]. now left.
  - intros c Hc.
    apply (Permutation_in _ (Permutation_sym Hp)) in Hc.
    inversion Hs as [|? ? _ Hall]; subst.
    destruct Hc as [->|Hc]; [lia|].
    rewrite Forall_forall in Hall. now apply Hall.
Qed.

Lemma sort_nonempty (l : list A) :
  l <> [] -> exists d, hd_error (JsArray.sort cmp l) = Some d.
Proof.
  intros Hne.
  pose proof (sort_perm l) as Hp.
  destruct (JsArray.sort cmp l) as [|y r].
  - apply Permutation_nil in Hp. contradiction.
  - now exists y.
Qed.

(** Strictly increasing keys leave one arrangement only. *)
Lemma sorted_perm_unique (l1 l2 : list A) :
  StronglySorted (JsArray.keyLt key) l1 -> StronglySorted (JsArray.keyLe key) l2 ->
  Permutation l1 l2 -> l1 = l2.
Proof.
  revert l2. induction l1 as [|x r IH]; intros l2 H1 H2 Hp.
  - apply Permutation_nil in Hp. now subst.
  - inversion H1 as [|? ? Hr Hx]; subst.
    destruct l2 as [|y r2];
      [apply Permutation_sym, Permutation_nil in Hp; discriminate|].
    inversion H2 as [|? ? Hr2 Hy]; subst.
    rewrite Forall_forall in Hx, Hy.
    assert (Hxy : x = y).
    { assert (Hin : In y (x :: r)).
      { eapply Permutation_in; [symmetry; exact Hp|]. now left. }
      destruct Hin as [->|Hin]; [reflexivity|].
      assert (Hin' : In x (y :: r2)).
      { eapply Permutation_in; [exact Hp|]. now left. }
      destruct Hin' as [->|Hin']; [reflexivity|].
      specialize (Hx _ Hin). specialize (Hy _ Hin').
      unfold JsArray.keyLt, JsArray.keyLe in *. lia. }
    subst y. f_equal.
    apply IH; try assumption.
    now apply Permutation_cons_inv in Hp.
Qed.

End SortFacts.

(** ** Citation resolution *)

Section Resolver.
Import App ResolverSpec JsString.

Lemma isExact_stored (citation : Citation.t) (d : RailDocument.t) :
  isExact citation d = exact normalizeStored citation d.
Proof.
  unfold isExact, exact, normalizeStored, normalize, targetNoExt, target.
  destruct (String.eqb_spec (toLowerCase (RailDocument.name d))
              (trim (toLowerCase (Citation.standard citation)))) as [E|E];
    simpl; [|reflexivity].
  rewrite E. symmetry. apply String.eqb_refl.
Qed.

Lemma isCandidate_stored (citation : Citation.t) (d : RailDocument.t) :
  isCandidate citation d = candidate normalizeStored citation d.
Proof.
  unfold isCandidate, candidate, normalizeStored, normalize, targetNoExt,
    target.
  apply orb_comm.
Qed.

Lemma find_none_existsb {A} (p q : A -> bool) (l : list A) :
  (forall x, p x = q x) -> find p l = None -> existsb q l = false.
Proof.
  intros Hpq Hf.
  destruct (existsb q l) eqn:E; [|reflexivity].
  apply existsb_exists in E as (x & Hin & Hx).
  rewrite <- Hpq in Hx.
  now rewrite (find_none _ _ Hf x Hin) in Hx.
Qed.

Lemma find_some_existsb {A} (p q : A -> bool) (l : list A) (d : A) :
  (forall x, p x = q x) -> find p l = Some d ->
  existsb q l = true /\ In d l /\ q d = true.
Proof.
  intros Hpq Hf. apply find_some in Hf as [Hin Hd].
  rewrite Hpq in Hd. repeat split; try assumption.
  apply existsb_exists. now exists d.
Qed.

(** What [findDocument] returns when the first pass finds nothing. *)
Lemma findDocument_second_pass (citation : Citation.t)
  (docs : list RailDocument.t) :
  find (isExact citation) docs = None ->
  match findDocument citation docs with
  | Some d => closest citation (filter (isCandidate citation) docs) d
  | None => filter (isCandidate citation) docs = []
  end.
Proof.
  intros Hf. unfold findDocument. rewrite Hf.
  destruct (filter (isCandidate citation) docs) as [|c cs] eqn:Ec;
    [reflexivity|].
  destruct (sort_nonempty (lengthGap citation) (c :: cs)) as [d Hd];
    [discriminate|].
  unfold byLengthGap. rewrite Hd.
  now apply sort_head_least in Hd.
Qed.

(** C1 (as amended): the lookup of [handleCitationClick] is the two-pass
    algorithm in which the citation name is lower-cased, trimmed and
    stripped of a trailing ".pdf", and a stored name is lower-cased and
    stripped of a trailing ".pdf" without being trimmed: an exact match is
    returned when there is one; otherwise a candidate (containment either
    way) whose original name length is closest to the original citation's;
    not-found only when both passes yield nothing. *)
Theorem findDocument_stored_resolves (citation : Citation.t)
  (docs : list RailDocument.t) :
  storedResolves citation docs (findDocument citation docs).
Proof.
  unfold storedResolves, resolves.
  destruct (find (isExact citation) docs) as [d|] eqn:Hf.
  - destruct (find_some_existsb _ _ _ _ (isExact_stored citation) Hf)
      as (He & Hin & Hd).
    rewrite He. exists d. unfold findDocument. rewrite Hf. auto.
  - rewrite (find_none_existsb _ _ _ (isExact_stored citation) Hf).
    pose proof (findDocument_second_pass citation docs Hf) as H2.
    rewrite (filter_ext _ _ (isCandidate_stored citation)) in H2.
    exact H2.
Qed.

(** C1 (as stated) fails: with the stored name " NR-L2.pdf" (a leading
    blank) and the citation "NR-L2-TRK" the specification's normalization
    makes the document a candidate ("nr-l2" is contained in "nr-l2-trk");
    the code, which keeps the blank, finds nothing. *)
Lemma findDocument_not_spec_resolves :
  ~ specResolves (Citation.mk "NR-L2-TRK" "1" None)
      [RailDocument.mk "id-1" " NR-L2.pdf" "" 0 0 []]
      (findDocument (Citation.mk "NR-L2-TRK" "1" None)
         [RailDocument.mk "id-1" " NR-L2.pdf" "" 0 0 []]).
Proof. vm_compute. discriminate. Qed.

(** The scenario of the specification: the exact match wins. *)
Example findDocument_exact_wins :
  option_map RailDocument.name
    (findDocument (Citation.mk "RT/CE/S/104" "4.2" (Some 3))
       [RailDocument.mk "id-1" "RT CE S 104 (1).pdf" "" 0 0 [];
        RailDocument.mk "id-2" "RT/CE/S/104.pdf" "" 0 0 []])
  = Some "RT/CE/S/104.pdf".
Proof. reflexivity. Qed.

(** The answer is always one of the documents at hand. *)
Lemma findDocument_In (citation : Citation.t) (docs : list RailDocument.t)
  (d : RailDocument.t) :
  findDocument citation docs = Some d -> In d docs.
Proof.
  intros H. unfold findDocument in H.
  destruct (find (isExact citation) docs) as [e|] eqn:Hf.
  - injection H as <-. now apply find_some in Hf.
  - destruct (filter (isCandidate citation) docs) as [|c cs] eqn:Ec;
      [discriminate|].
    apply (sort_head_least (lengthGap citation)) in H as [Hin _].
    rewrite <- Ec in Hin. now apply filter_In in Hin.
Qed.

(** Not-found means that no document passes either test. *)
Lemma findDocument_None (citation : Citation.t) (docs : list RailDocument.t) :
  findDocument citation docs = None <->
  (forall d, In d docs -> isExact citation d = false
                          /\ isCandidate citation d = false).
Proof.
  split.
  - intros H d Hin. unfold findDocument in H.
    destruct (find (isExact citation) docs) as [e|] eqn:Hf; [discriminate|].
    split; [exact (find_none _ _ Hf d Hin)|].
    destruct (filter (isCandidate citation) docs) as [|c cs] eqn:Ec.
    + destruct (isCandidate citation d) eqn:E; [|reflexivity].
      assert (Hd : In d (filter (isCandidate citation) docs))
        by (apply filter_In; auto).
      rewrite Ec in Hd. destruct Hd.
    + destruct (sort_nonempty (lengthGap citation) (c :: cs)) as [x Hx];
        [discriminate|].
      unfold byLengthGap in H. rewrite Hx in H. discriminate.
  - intros H. unfold findDocument.
    destruct (find (isExact citation) docs) as [e|] eqn:Hf.
    + apply find_some in Hf as [Hin He].
      destruct (H e Hin) as [He' _]. congruence.
    + destruct (filter (isCandidate citation) docs) as [|c cs] eqn:Ec;
        [reflexivity|].
      assert (Hc : In c (filter (isCandidate citation) docs))
        by (rewrite Ec; now left).
      apply filter_In in Hc as [Hin Hc].
      destruct (H c Hin) as [_ Hc']. congruence.
Qed.

(** An answer passes one of the two tests. *)
Lemma findDocument_matches (citation : Citation.t)
  (docs : list RailDocument.t) (d : RailDocument.t) :
  findDocument citation docs = Some d ->
  isExact citation d = true \/ isCandidate citation d = true.
Proof.
  intros H. unfold findDocument in H.
  destruct (find (isExact citation) docs) as [e|] eqn:Hf.
  - injection H as <-. left. now apply find_some in Hf.
  - destruct (filter (isCandidate citation) docs) as [|c cs] eqn:Ec;
      [discriminate|].
    apply (sort_head_least (lengthGap citation)) in H as [Hin _].
    rewrite <- Ec in Hin. right. now apply filter_In in Hin.
Qed.

End Resolver.

(** ** Activating a citation *)

Section Citations.
Import App.

(** [handleCitationClick] in one equation: it never throws, it leaves the
    world alone, and it either reports not-found or opens the overlay. *)
Lemma handleCitationClick_run (citation : Citation.t) (s : Sys) :
  handleCitationClick citation s =
  (Ok tt,
   mkSys
     (let a := app s in
      match findDocument citation (documents a) with
      | None =>
          mkState (documents a) (chatHistory a) (inputText a)
            (isProcessingFile a) (isLoadingLibrary a) (isAsking a)
            (Some (notFound citation)) (activeClause a)
      | Some doc =>
          mkState (documents a) (chatHistory a) (inputText a)
            (isProcessingFile a) (isLoadingLibrary a) (isAsking a) None
            (Some (ActiveClause.mk (RailDocument.name doc)
                     (Citation.clause citation) (RailDocument.pdfData doc)
                     (openingPage citation)))
      end)
     (world s)).
Proof.
  unfold handleCitationClick, bind, setError, setActiveClause, setApp,
    modify, get.
  cbn.
  destruct (findDocument citation (documents (app s))); reflexivity.
Qed.

Lemma openingPage_cases (citation : Citation.t) :
  match Citation.page citation with
  | None => openingPage citation = 1%Z
  | Some p => ((p <= 0)%Z -> openingPage citation = 1%Z)
              /\ ((0 < p)%Z -> openingPage citation = p)
  end.
Proof.
  unfold openingPage.
  destruct (Citation.page citation) as [p|]; [|reflexivity].
  destruct (Z.eqb_spec p 0); split; intros; lia.
Qed.

(** C9: an activation opens the overlay exactly when the citation resolves
    to a document, and then on that document at page 1 if the citation's
    page is absent, zero or negative, and at the citation's page if it is
    positive; the viewer starts on the page it is opened at.  When the
    citation does not resolve, the overlay is left as it was and not-found
    is reported. *)
Theorem citation_opening_page (citation : Citation.t) (s : Sys) :
  let s' := snd (handleCitationClick citation s) in
  match findDocument citation (documents (app s)) with
  | None =>
      activeClause (app s') = activeClause (app s)
      /\ error (app s') = Some (notFound citation)
  | Some doc =>
      exists ac,
        activeClause (app s') = Some ac
        /\ ActiveClause.standardName ac = RailDocument.name doc
        /\ ActiveClause.pdfData ac = RailDocument.pdfData doc
        /\ match Citation.page citation with
           | None => ActiveClause.page ac = 1%Z
           | Some p => ((p <= 0)%Z -> ActiveClause.page ac = 1%Z)
                       /\ ((0 < p)%Z -> ActiveClause.page ac = p)
           end
        /\ ClauseModal.currentPage
             (ClauseModal.initialView (ActiveClause.page ac))
           = ActiveClause.page ac
  end.
Proof.
  intros s'. subst s'. rewrite handleCitationClick_run. cbn.
  destruct (findDocument citation (documents (app s))) as [doc|]; cbn.
  - eexists. split; [reflexivity|]. cbn.
    split; [reflexivity|]. split; [reflexivity|].
    split; [apply openingPage_cases|].
    unfold openingPage. lia.
  - split; reflexivity.
Qed.

End Citations.

(** ** Deleting a document *)

Section Deletion.
Import App.

Lemma delete_In {A} (key : A -> string) (k : string) (l : list A) (x : A) :
  In x (Storage.delete key k l) <-> In x l /\ key x <> k.
Proof.
  unfold Storage.delete. rewrite filter_In.
  destruct (String.eqb_spec (key x) k); simpl; intuition congruence.
Qed.

(** [removeDocument] when the store answers: the record goes from the store
    and from the list in memory, nothing else moves. *)
Lemma removeDocument_run (id : string) (s : Sys) :
  Storage.available (world s) = true ->
  removeDocument id s =
  (Ok tt,
   mkSys
     (let a := app s in
      mkState
        (filter (fun d => negb (String.eqb (RailDocument.id d) id))
                (documents a))
        (chatHistory a) (inputText a) (isProcessingFile a)
        (isLoadingLibrary a) (isAsking a) (error a) (activeClause a))
     (let w := world s in
      mkWorld (Storage.delete RailDocument.id id (docStore w)) (chatStore w)
        (uuidCount w) (clockCount w) (queryCount w) (tl (faults w))
        (log w ++ [EvDeleteDocument id]))).
Proof.
  unfold Storage.available. intros Hav.
  unfold removeDocument, tryCatch, bind, liftW, Storage.deleteDocument,
    Storage.request, setDocuments, setApp, modify.
  destruct (hd None (faults (world s))); [discriminate|].
  reflexivity.
Qed.

(** When the store refuses, the [catch] swallows the error and nothing but
    the consumed fault changes. *)
Lemma removeDocument_refused (id : string) (s : Sys) :
  Storage.available (world s) = false ->
  removeDocument id s =
  (Ok tt, mkSys (app s) (with_faults (tl (faults (world s))) (world s))).
Proof.
  unfold Storage.available. intros Hav.
  unfold removeDocument, tryCatch, bind, liftW, Storage.deleteDocument,
    Storage.request, ret.
  destruct (hd None (faults (world s))); [|discriminate].
  reflexivity.
Qed.

(** C10 (as amended): deleting a document by identifier changes the
    document collection only.  The persisted chat messages and the
    transcript in memory, with their citations, are unchanged, and so is
    every other document record.  A later activation of a citation does not
    fail and never opens the deleted document: it reports not-found when no
    remaining document matches the citation exactly or by containment;
    when one does, it clears the error and opens the overlay on the
    document [findDocument] selects among the remaining ones, itself a
    match, at the citation's clause and opening page. *)
Theorem removeDocument_frame (id : string) (citation : Citation.t) (s : Sys) :
  Storage.available (world s) = true ->
  let s1 := snd (removeDocument id s) in
  let s2 := snd (handleCitationClick citation s1) in
  (chatStore (world s1) = chatStore (world s)
   /\ chatHistory (app s1) = chatHistory (app s))
  /\ (forall d, RailDocument.id d <> id ->
        (In d (docStore (world s1)) <-> In d (docStore (world s)))
        /\ (In d (documents (app s1)) <-> In d (documents (app s))))
  /\ (forall d, In d (docStore (world s1)) \/ In d (documents (app s1)) ->
        RailDocument.id d <> id)
  /\ fst (handleCitationClick citation s1) = Ok tt
  /\ (chatStore (world s2) = chatStore (world s)
      /\ chatHistory (app s2) = chatHistory (app s))
  /\ ((forall d, In d (documents (app s1)) ->
         isExact citation d = false /\ isCandidate citation d = false) ->
      error (app s2) = Some (notFound citation)
      /\ activeClause (app s2) = activeClause (app s1))
  /\ ((exists d, In d (documents (app s1))
                 /\ (isExact citation d = true
                     \/ isCandidate citation d = true)) ->
      exists d, findDocument citation (documents (app s1)) = Some d
        /\ In d (documents (app s)) /\ RailDocument.id d <> id
        /\ (isExact citation d = true \/ isCandidate citation d = true)
        /\ error (app s2) = None
        /\ activeClause (app s2)
           = Some (ActiveClause.mk (RailDocument.name d)
                     (Citation.clause citation) (RailDocument.pdfData d)
                     (openingPage citation)))
  /\ (error (app s2) = None ->
      exists d, In d (documents (app s)) /\ RailDocument.id d <> id
        /\ activeClause (app s2)
           = Some (ActiveClause.mk (RailDocument.name d)
                     (Citation.clause citation) (RailDocument.pdfData d)
                     (openingPage citation))).
Proof.
  intros Hav s1 s2. subst s2 s1.
  rewrite (removeDocument_run id s Hav).
  rewrite handleCitationClick_run. cbn.
  set (docs' := filter (fun d => negb (String.eqb (RailDocument.id d) id))
                       (documents (app s))).
  assert (Hdocs : forall d, In d docs' <->
                    In d (documents (app s)) /\ RailDocument.id d <> id).
  { intros d. unfold docs'. rewrite filter_In.
    destruct (String.eqb_spec (RailDocument.id d) id); simpl;
      intuition congruence. }
  split; [split; reflexivity|].
  split.
  { intros d Hd. rewrite delete_In, Hdocs. intuition. }
  split.
  { intros d [Hd|Hd]; [apply delete_In in Hd|apply Hdocs in Hd]; tauto. }
  split; [reflexivity|].
  split.
  { destruct (findDocument citation docs'); split; reflexivity. }
  split.
  { intros Hnone. apply findDocument_None in Hnone.
    rewrite Hnone. cbn. split; reflexivity. }
  split.
  - intros (m & Hm & Hpass).
    destruct (findDocument citation docs') as [d|] eqn:Hf; cbn.
    + exists d. split; [reflexivity|].
      pose proof (findDocument_matches _ _ _ Hf) as Hd.
      apply findDocument_In in Hf. apply Hdocs in Hf as [Hin Hid]. auto.
    + exfalso. destruct (proj1 (findDocument_None _ _) Hf m Hm) as [H1 H2].
      destruct Hpass; congruence.
  - destruct (findDocument citation docs') as [d|] eqn:Hf; cbn;
      [|discriminate].
    intros _. apply findDocument_In in Hf. apply Hdocs in Hf as [Hin Hid].
    exists d. auto.
Qed.

End Deletion.

(** ** Ingestion *)

Section Ingestion.
Import App.
Local Open Scope js_scope.
Variable env : Env.

Lemma put_In {A} (key : A -> string) (x : A) (l : list A) :
  In x (Storage.put key x l).
Proof.
  induction l as [|y r IH]; simpl; [now left|].
  destruct (String.compare (key x) (key y)); simpl; auto.
Qed.

(** An accepted, readable file when the store answers: the document is
    built, saved and returned. *)
Lemma processFile_saved (file : File.t) (text : string) (s : Sys) :
  notPdf file = false -> oversize file = false ->
  PdfService.extractTextFromPdf env file = Ok text ->
  Storage.available (world s) = true ->
  processFile env file s =
  (Ok (Some (builtDocument env file text (world s))),
   mkSys (app s)
     (let w := world s in
      mkWorld (Storage.put RailDocument.id (builtDocument env file text w) (docStore w))
        (chatStore w) (S (uuidCount w)) (S (clockCount w)) (queryCount w)
        (tl (faults w))
        (log w ++ [EvPutDocument (randomUUID env (uuidCount w))]))).
Proof.
  unfold Storage.available. intros Hn Ho Hx Hav.
  unfold processFile. rewrite Hn, Ho.
  unfold bind, liftOutcome, newUUID, newDate, liftW, Storage.saveDocument,
    Storage.request, ret.
  rewrite Hx. cbn.
  destruct (hd None (faults (world s))); [discriminate|].
  reflexivity.
Qed.

(** An accepted file that pdf.js cannot decode: [processFile] throws the
    extraction error and touches nothing. *)
Lemma processFile_corrupt (file : File.t) (s : Sys) :
  notPdf file = false -> oversize file = false ->
  getDocument env (File.bytes file) = None ->
  processFile env file s = (Throw PdfService.extractionError, s).
Proof.
  intros Hn Ho Hg. unfold processFile. rewrite Hn, Ho.
  unfold bind, liftOutcome, PdfService.extractTextFromPdf.
  now rewrite Hg.
Qed.

(** The loop over a batch in two parts. *)
Lemma processFiles_app (l1 l2 : list File.t) (acc : list RailDocument.t)
  (s : Sys) :
  processFiles env (l1 ++ l2) acc s =
  match processFiles env l1 acc s with
  | (Ok acc', s1) => processFiles env l2 acc' s1
  | (Throw e, s1) => (Throw e, s1)
  end.
Proof.
  revert acc s. induction l1 as [|f r IH]; intros acc s.
  - cbn. unfold ret. reflexivity.
  - change ((f :: r) ++ l2)%list with (f :: (r ++ l2))%list.
    cbn [processFiles]. unfold bind.
    destruct (processFile env f s) as [[d|e] s1]; [|reflexivity].
    apply IH.
Qed.

(** C2 (as amended): an extraction failure on one file of an upload batch
    aborts the batch at that file.  Whatever the files before it wrote
    stays in the store, the files after it are not processed (the world is
    the one the files before the failure left), the extraction error is
    surfaced and the processing flag is cleared. *)
Theorem handleFileUpload_aborts_on_extraction_failure
  (files1 files2 : list File.t) (bad : File.t) (s s1 : Sys)
  (docs1 : list RailDocument.t) :
  processFiles env files1 []
    (snd ((setIsProcessingFile true ;;; setError None) s)) = (Ok docs1, s1) ->
  notPdf bad = false -> oversize bad = false ->
  getDocument env (File.bytes bad) = None ->
  exists s',
    handleFileUpload env (files1 ++ bad :: files2) s = (Ok tt, s')
    /\ world s' = world s1
    /\ error (app s') = Some PdfService.extractionError
    /\ isProcessingFile (app s') = false.
Proof.
  intros H1 Hn Ho Hg.
  assert (Hloop : processFiles env (files1 ++ bad :: files2) []
                    (snd ((setIsProcessingFile true ;;; setError None) s))
                  = (Throw PdfService.extractionError, s1)).
  { rewrite processFiles_app, H1. cbn [processFiles]. unfold bind.
    now rewrite (processFile_corrupt bad s1 Hn Ho Hg). }
  unfold handleFileUpload.
  destruct (files1 ++ bad :: files2)%list as [|f0 r0] eqn:E;
    [destruct files1; discriminate|].
  cbn in Hloop |- *.
  unfold bind, tryFinally, tryCatch, setIsProcessingFile, setError, setApp,
    modify in Hloop |- *.
  cbn in Hloop |- *. rewrite Hloop. cbn.
  eexists. split; [reflexivity|]. cbn. auto.
Qed.

(** The drop handler has the same single [try] around its loop. *)
Lemma handleDrop_aborts_on_extraction_failure
  (items : list (option FileSystemEntry)) (files1 files2 : list File.t)
  (bad : File.t) (s s1 : Sys) (docs1 : list RailDocument.t) :
  flat_map (fun item => match item with
                        | Some entry => scanFiles entry
                        | None => []
                        end) items = (files1 ++ bad :: files2)%list ->
  processFiles env files1 []
    (snd ((setIsProcessingFile true ;;; setError None) s)) = (Ok docs1, s1) ->
  notPdf bad = false -> oversize bad = false ->
  getDocument env (File.bytes bad) = None ->
  exists s',
    handleDrop env items s = (Ok tt, s')
    /\ world s' = world s1
    /\ error (app s') = Some PdfService.extractionError
    /\ isProcessingFile (app s') = false.
Proof.
  intros Hscan H1 Hn Ho Hg.
  assert (Hloop : processFiles env (files1 ++ bad :: files2) []
                    (snd ((setIsProcessingFile true ;;; setError None) s))
                  = (Throw PdfService.extractionError, s1)).
  { rewrite processFiles_app, H1. cbn [processFiles]. unfold bind.
    now rewrite (processFile_corrupt bad s1 Hn Ho Hg). }
  unfold handleDrop. rewrite Hscan.
  unfold bind, tryFinally, tryCatch, setIsProcessingFile, setError, setApp,
    modify in Hloop |- *.
  cbn in Hloop |- *. rewrite Hloop. cbn.
  eexists. split; [reflexivity|]. cbn. auto.
Qed.

(** C8: an accepted PDF in which pdf.js finds zero pages yields exactly the
    marker text, and the document is stored all the same: [processFile]
    returns it with the marker as content and it is in the document store;
    uploaded alone, it joins the library in memory without any error. *)
Theorem zero_page_pdf_is_stored (file : File.t) (pdf : PdfDocument.t)
  (s : Sys) :
  notPdf file = false -> oversize file = false ->
  getDocument env (File.bytes file) = Some pdf ->
  PdfDocument.numPages pdf = 0%Z ->
  Storage.available (world s) = true ->
  PdfService.extractTextFromPdf env file
    = Ok "[Error: This PDF contains no readable pages.]"
  /\ exists doc,
       fst (processFile env file s) = Ok (Some doc)
       /\ RailDocument.content doc
          = "[Error: This PDF contains no readable pages.]"
       /\ In doc (docStore (world (snd (processFile env file s))))
       /\ fst (handleFileUpload env [file] s) = Ok tt
       /\ documents (app (snd (handleFileUpload env [file] s)))
          = (documents (app s) ++ [doc])%list
       /\ In doc (docStore (world (snd (handleFileUpload env [file] s))))
       /\ error (app (snd (handleFileUpload env [file] s))) = None.
Proof.
  intros Hn Ho Hg Hz Hav.
  assert (Hx : PdfService.extractTextFromPdf env file
               = Ok PdfService.noPagesMarker).
  { unfold PdfService.extractTextFromPdf. rewrite Hg, Hz. reflexivity. }
  split; [exact Hx|].
  exists (builtDocument env file PdfService.noPagesMarker (world s)).
  rewrite (processFile_saved file _ s Hn Ho Hx Hav). cbn.
  split; [reflexivity|]. split; [reflexivity|].
  split; [apply put_In|].
  unfold handleFileUpload, bind, tryFinally, tryCatch, processFiles,
    setIsProcessingFile, setError, setDocuments, setApp, modify, ret.
  cbn.
  unfold bind.
  rewrite (processFile_saved file _ _ Hn Ho Hx); [|exact Hav].
  cbn. repeat split; try reflexivity. apply put_In.
Qed.

End Ingestion.

(** ** Asking *)

Section Asking.
Import App.
Variable env : Env.

(** [handleAsk] when the guard lets the question through, the store takes
    the user message and the remote query throws [err]. *)
Lemma handleAsk_query_failed (s : Sys) (err : string) :
  askGuard (app s) = false ->
  Storage.available (world s) = true ->
  GeminiService.queryStandards env (inputText (app s)) (documents (app s))
    (queryCount (world s)) = Throw err ->
  handleAsk env s =
  (Ok tt,
   mkSys
     (let a := app s in
      mkState (documents a) (chatHistory a ++ [userMessage env s]) ""
        (isProcessingFile a) (isLoadingLibrary a) false
        (Some (orElse err "Failed to get an answer.")) (activeClause a))
     (let w := world s in
      mkWorld (docStore w)
        (Storage.put ChatMessage.id (userMessage env s) (chatStore w))
        (S (uuidCount w)) (S (clockCount w)) (S (queryCount w))
        (tl (faults w))
        ((log w ++ [EvPutChat (ChatMessage.id (userMessage env s))])
         ++ [EvQuery (inputText (app s)) (documents (app s))]))).
Proof.
  unfold Storage.available. intros Hg Hav Hq.
  unfold handleAsk, bind, get. cbn. rewrite Hg.
  unfold newUUID, newDate, liftW, setChatHistory, setInputText, setIsAsking,
    setError, setApp, modify, Storage.saveChatMessage, Storage.request,
    tryFinally, tryCatch, bind, queryStandards, liftW.
  cbn.
  destruct (hd None (faults (world s))); [discriminate|].
  cbn. rewrite Hq. reflexivity.
Qed.

(** The same run when the remote query answers: the trace starts alike. *)
Lemma handleAsk_query_answered (s : Sys) (result : GeminiResponse.t) :
  askGuard (app s) = false ->
  Storage.available (world s) = true ->
  GeminiService.queryStandards env (inputText (app s)) (documents (app s))
    (queryCount (world s)) = Ok result ->
  exists rest,
    log (world (snd (handleAsk env s))) =
    (log (world s)
     ++ EvPutChat (ChatMessage.id (userMessage env s))
        :: EvQuery (inputText (app s)) (documents (app s)) :: rest)%list.
Proof.
  unfold Storage.available. intros Hg Hav Hq.
  unfold handleAsk, bind, get. cbn. rewrite Hg.
  unfold newUUID, newDate, liftW, setChatHistory, setInputText, setIsAsking,
    setError, setApp, modify, Storage.saveChatMessage, Storage.request,
    tryFinally, tryCatch, bind, queryStandards, liftW.
  cbn.
  destruct (hd None (faults (world s))); [discriminate|].
  cbn. rewrite Hq. cbn.
  destruct (hd None (tl (faults (world s)))); cbn.
  - exists []. now rewrite <- app_assoc.
  - eexists [_]. now rewrite <- !app_assoc.
Qed.

(** A question the guard stops changes nothing. *)
Lemma handleAsk_blocked (s : Sys) :
  askGuard (app s) = true -> handleAsk env s = (Ok tt, s).
Proof.
  intros Hg. unfold handleAsk, bind, get. cbn. now rewrite Hg.
Qed.

(** When the store refuses the user message, [handleAsk] throws before the
    remote query is reached. *)
Lemma handleAsk_unsaved (s : Sys) :
  askGuard (app s) = false ->
  Storage.available (world s) = false ->
  log (world (snd (handleAsk env s))) = log (world s)
  /\ queryCount (world (snd (handleAsk env s))) = queryCount (world s)
  /\ exists msg, fst (handleAsk env s) = Throw msg.
Proof.
  unfold Storage.available. intros Hg Hav.
  unfold handleAsk, bind, get. cbn. rewrite Hg.
  unfold newUUID, newDate, liftW, setChatHistory, setApp, modify,
    Storage.saveChatMessage, Storage.request, bind.
  cbn.
  destruct (hd None (faults (world s))) as [msg|]; [|discriminate].
  cbn. eauto.
Qed.

(** C4: in every run of [handleAsk] the remote query is issued only after
    the user message was appended and persisted: a question stopped by the
    guard changes nothing and a question the store refuses throws without a
    query; otherwise the trace has the put of the user message right before
    the query, whatever the query then does.  If the query fails, the
    transcript and the store hold the user message and no assistant
    message, the failure reason is surfaced as the error, and the query was
    issued exactly once. *)
Theorem handleAsk_remote_failure (s : Sys) :
  let question := inputText (app s) in
  let docs := documents (app s) in
  let s' := snd (handleAsk env s) in
  (askGuard (app s) = true -> handleAsk env s = (Ok tt, s))
  /\ (askGuard (app s) = false -> Storage.available (world s) = false ->
      log (world s') = log (world s)
      /\ queryCount (world s') = queryCount (world s)
      /\ exists msg, fst (handleAsk env s) = Throw msg)
  /\ (askGuard (app s) = false -> Storage.available (world s) = true ->
      (exists rest,
         log (world s') =
         (log (world s)
          ++ EvPutChat (ChatMessage.id (userMessage env s))
             :: EvQuery question docs :: rest)%list)
      /\ forall err,
           GeminiService.queryStandards env question docs
             (queryCount (world s)) = Throw err ->
           fst (handleAsk env s) = Ok tt
           /\ chatHistory (app s')
              = (chatHistory (app s) ++ [userMessage env s])%list
           /\ chatStore (world s')
              = Storage.put ChatMessage.id (userMessage env s)
                  (chatStore (world s))
           /\ In (userMessage env s) (chatStore (world s'))
           /\ log (world s') =
              (log (world s)
               ++ [EvPutChat (ChatMessage.id (userMessage env s));
                   EvQuery question docs])%list
           /\ queryCount (world s') = S (queryCount (world s))
           /\ error (app s') = Some (orElse err "Failed to get an answer.")
           /\ isAsking (app s') = false).
Proof.
  intros question docs s'. subst question docs s'.
  split; [apply handleAsk_blocked|].
  split; [apply handleAsk_unsaved|].
  intros Hg Hav. split.
  - destruct (GeminiService.queryStandards env (inputText (app s))
                (documents (app s)) (queryCount (world s)))
      as [result|err] eqn:Hq.
    + now apply handleAsk_query_answered with result.
    + rewrite (handleAsk_query_failed s err Hg Hav Hq). cbn.
      exists []. now rewrite <- app_assoc.
  - intros err Hq.
    rewrite (handleAsk_query_failed s err Hg Hav Hq). cbn.
    repeat split; try reflexivity.
    + apply put_In.
    + now rewrite <- app_assoc.
Qed.

End Asking.

(** ** The chat history in the store *)

Section ChatStore.
Import Storage.

(** A record with a new key is added, nothing is replaced. *)
Lemma put_fresh_perm {A} (key : A -> string) (x : A) (l : list A) :
  ~ In (key x) (map key l) -> Permutation (put key x l) (x :: l).
Proof.
  induction l as [|y r IH]; intros Hn; simpl; [reflexivity|].
  destruct (String.compare (key x) (key y)) eqn:E.
  - apply String.compare_eq_iff in E. exfalso. apply Hn. now left.
  - reflexivity.
  - rewrite IH; [apply perm_swap|]. intros Hi. apply Hn. now right.
Qed.

Lemma saveChatMessage_run (m : ChatMessage.t) (w : World) :
  faults w = [] ->
  saveChatMessage m w =
  (Ok tt,
   mkWorld (docStore w) (put ChatMessage.id m (chatStore w)) (uuidCount w)
     (clockCount w) (queryCount w) []
     (log w ++ [EvPutChat (ChatMessage.id m)])).
Proof.
  intros Hf. unfold saveChatMessage, request. rewrite Hf. reflexivity.
Qed.

(** Persisting messages with new, distinct keys leaves the store holding
    the old records and the new ones. *)
Lemma persistAll_run (msgs : list ChatMessage.t) (w : World) :
  faults w = [] ->
  NoDup (map ChatMessage.id (chatStore w ++ msgs)) ->
  exists w',
    persistAll msgs w = (Ok tt, w')
    /\ faults w' = []
    /\ Permutation (chatStore w') (chatStore w ++ msgs).
Proof.
  revert w. induction msgs as [|m r IH]; intros w Hf Hnd.
  - exists w. rewrite app_nil_r. repeat split; auto.
  - cbn [persistAll]. unfold bind. rewrite (saveChatMessage_run m w Hf).
    set (w1 := mkWorld _ _ _ _ _ _ _).
    assert (Hm : ~ In (ChatMessage.id m) (map ChatMessage.id (chatStore w))).
    { rewrite map_app in Hnd. cbn in Hnd.
      apply NoDup_remove_2 in Hnd. intros Hi. apply Hnd.
      apply in_or_app. now left. }
    pose proof (put_fresh_perm ChatMessage.id m (chatStore w) Hm) as Hp.
    destruct (IH w1) as (w' & Hrun & Hf' & Hperm); [reflexivity| |].
    + cbn. eapply Permutation_NoDup; [|exact Hnd].
      apply Permutation_map.
      rewrite Hp. cbn. symmetry. apply Permutation_middle.
    + exists w'. repeat split; try assumption.
      rewrite Hperm. cbn. rewrite Hp. cbn. apply Permutation_middle.
Qed.

Lemma getChatHistory_run (w : World) :
  faults w = [] ->
  getChatHistory w =
  (Ok (JsArray.sort byTimestamp (chatStore w)), with_faults [] w).
Proof.
  intros Hf. unfold getChatHistory, request. rewrite Hf. reflexivity.
Qed.

(** C5 (as amended): after messages with new, distinct identifiers are
    persisted, a reload returns the stored messages, old and new, in
    ascending timestamp order; when the transcript in memory (the history
    as loaded, followed by the appended messages) has strictly increasing
    timestamps, the reload is identical to it. *)
Theorem chat_history_roundtrip (msgs : list ChatMessage.t) (w : World) :
  faults w = [] ->
  NoDup (map ChatMessage.id (chatStore w ++ msgs)) ->
  exists w' history,
    persistAll msgs w = (Ok tt, w')
    /\ fst (getChatHistory w') = Ok history
    /\ Permutation history (chatStore w ++ msgs)
    /\ StronglySorted (JsArray.keyLe ChatMessage.timestamp) history
    /\ (StronglySorted (JsArray.keyLt ChatMessage.timestamp)
          (JsArray.sort byTimestamp (chatStore w) ++ msgs) ->
        history = (JsArray.sort byTimestamp (chatStore w) ++ msgs)%list).
Proof.
  intros Hf Hnd.
  destruct (persistAll_run msgs w Hf Hnd) as (w' & Hrun & Hf' & Hperm).
  exists w', (JsArray.sort byTimestamp (chatStore w')).
  rewrite (getChatHistory_run w' Hf').
  pose proof (sort_perm ChatMessage.timestamp (chatStore w')) as Hs.
  pose proof (sort_sorted ChatMessage.timestamp (chatStore w')) as Hsorted.
  split; [exact Hrun|]. split; [reflexivity|].
  split; [unfold byTimestamp; now rewrite Hs|].
  split; [exact Hsorted|].
  intros Hstrict. symmetry.
  apply (sorted_perm_unique ChatMessage.timestamp); try assumption.
  unfold byTimestamp. rewrite Hs, Hperm.
  apply Permutation_app_tail.
  apply (sort_perm ChatMessage.timestamp).
Qed.

End ChatStore.

(** ** The overlay window *)

Section Window.
Import ClauseModal.
Local Open Scope Q_scope.

Lemma handleMouseMove_resizing (clientX clientY : Q) (g : Geometry) :
  isResizing g = true -> aboveFloor (handleMouseMove clientX clientY g).
Proof.
  intros Hr. unfold aboveFloor, handleMouseMove, width, height.
  rewrite Hr. cbn. split; apply Q.le_max_l.
Qed.

Lemma pointer_aboveFloor (e : PointerEvent) (g : Geometry) :
  aboveFloor g -> aboveFloor (pointer e g).
Proof.
  intros Hg. destruct e as [h cx cy|cx cy|cx cy|]; cbn.
  - unfold handleMouseDown. destruct h; exact Hg.
  - exact Hg.
  - destruct (isResizing g) eqn:Hr;
      [now apply handleMouseMove_resizing|].
    unfold handleMouseMove. rewrite Hr.
    destruct (isDragging g); exact Hg.
  - exact Hg.
Qed.

Lemma events_aboveFloor (events : list PointerEvent) (g : Geometry) :
  aboveFloor g -> aboveFloor (fold_left (fun g e => pointer e g) events g).
Proof.
  revert g. induction events as [|e r IH]; intros g Hg; [exact Hg|].
  cbn. apply IH. now apply pointer_aboveFloor.
Qed.

(** C6 (as amended): the opening size is 90% of the viewport capped at
    1000 by 850, without a floor; every resize operation yields a width of
    at least 400 and a height of at least 300 whatever the pointer does;
    so the window stays at least 400 by 300 throughout every session whose
    viewport gives an opening size of at least 400 by 300. *)
Theorem overlay_size_floor (innerWidth innerHeight : Q)
  (events : list PointerEvent) :
  400 <= innerWidth * (9 # 10) -> 300 <= innerHeight * (9 # 10) ->
  (400 <= width (session innerWidth innerHeight events)
   /\ 300 <= height (session innerWidth innerHeight events))
  /\ (forall g clientX clientY, isResizing g = true ->
        400 <= width (handleMouseMove clientX clientY g)
        /\ 300 <= height (handleMouseMove clientX clientY g))
  /\ (forall g,
        width (openEffect innerWidth innerHeight g)
          == Qmin (innerWidth * (9 # 10)) 1000
        /\ height (openEffect innerWidth innerHeight g)
          == Qmin (innerHeight * (9 # 10)) 850).
Proof.
  intros Hw Hh. split; [|split].
  - apply events_aboveFloor. unfold aboveFloor, openEffect, width, height.
    cbn. split; apply Q.min_glb; try assumption; discriminate.
  - intros g cx cy Hr. now apply handleMouseMove_resizing.
  - intros g. split; reflexivity.
Qed.

(** C6 (as stated) fails at first open: in a viewport 375 wide and 667
    high the overlay opens 337.5 wide. *)
Lemma overlay_opens_below_floor :
  ~ (400 <= width (session 375 667 [])).
Proof. vm_compute. intros H. apply H. reflexivity. Qed.

End Window.

(** ** Page navigation *)

Section Navigation.
Import ClauseModal.
Local Open Scope Z_scope.

Lemma clampPage_range (num numPages : Z) :
  1 <= numPages -> 1 <= clampPage num numPages <= numPages.
Proof. unfold clampPage. lia. Qed.

Lemma navigate_inRange (e : NavEvent) (v : View) :
  inRange v ->
  inRange (navigate e v) /\ totalPages (navigate e v) = totalPages v.
Proof.
  unfold inRange. intros Hv. destruct e; cbn.
  - unfold clickPrevious. destruct (previousDisabled v); cbn; [auto|].
    split; [lia|reflexivity].
  - unfold clickNext. destruct (nextDisabled v); cbn; [auto|].
    split; [lia|reflexivity].
  - auto.
Qed.

Lemma browse_inRange (events : list NavEvent) (v : View) :
  inRange v ->
  inRange (fold_left (fun v e => navigate e v) events v)
  /\ totalPages (fold_left (fun v e => navigate e v) events v) = totalPages v.
Proof.
  revert v. induction events as [|e r IH]; intros v Hv; [auto|].
  cbn. destruct (navigate_inRange e v Hv) as [H1 H2].
  destruct (IH _ H1) as [H3 H4]. split; [exact H3|congruence].
Qed.

Lemma navigate_totalPages (events : list NavEvent) (v : View) :
  totalPages (fold_left (fun v e => navigate e v) events v) = totalPages v.
Proof.
  revert v. induction events as [|e l IH]; intros v; [reflexivity|].
  cbn [fold_left]. rewrite IH.
  destruct e; cbn [navigate]; [| |reflexivity].
  - unfold clickPrevious. now destruct (previousDisabled v).
  - unfold clickNext. now destruct (nextDisabled v).
Qed.

Lemma browse_no_pages (events : list NavEvent) (v : View) :
  totalPages v <= 0 -> currentPage v = 1 ->
  currentPage (fold_left (fun v e => navigate e v) events v) = 1.
Proof.
  revert v. induction events as [|e r IH]; intros v Ht Hc; [auto|].
  cbn [fold_left].
  assert (H : navigate e v = v \/ navigate e v = setLoading false v).
  { destruct e; cbn [navigate]; [| |now right].
    - unfold clickPrevious, previousDisabled. rewrite Hc. now left.
    - unfold clickNext, nextDisabled.
      replace (currentPage v >=? totalPages v) with true
        by (symmetry; apply Z.geb_le; lia).
      now left. }
  destruct H as [-> | ->]; now apply IH.
Qed.

(** C7 (amended): through every sequence of navigation events on a loaded
    document of [numPages] pages the total stays [numPages], and the
    current page stays within 1..numPages when there is at least one page;
    on a document without pages it stays 1, with both buttons disabled.
    At page 1 the previous-page update changes nothing and its button is
    disabled, at the last page the next-page update changes nothing and its
    button is disabled; an enabled button moves by exactly one page.  The
    page shown first is the opening page clamped, and the page [renderPage]
    asks pdf.js for is the clamp of the requested one: the page itself when
    it is one of the document's, 1 below, [numPages] above, and 1 when the
    document has no page. *)
Theorem page_stays_in_range (initialPage numPages : Z)
  (events : list NavEvent) :
  let v := browse initialPage numPages events in
  totalPages v = numPages
  /\ (1 <= numPages -> 1 <= currentPage v <= numPages)
  /\ (numPages <= 0 ->
      currentPage v = 1 /\ previousDisabled v = true
      /\ nextDisabled v = true)
  /\ (currentPage v = 1 ->
      previousPage v = v /\ previousDisabled v = true /\ clickPrevious v = v)
  /\ (currentPage v = numPages ->
      nextPage v = v /\ nextDisabled v = true /\ clickNext v = v)
  /\ (previousDisabled v = false ->
      currentPage (clickPrevious v) = currentPage v - 1)
  /\ (nextDisabled v = false ->
      currentPage (clickNext v) = currentPage v + 1)
  /\ currentPage (browse initialPage numPages [])
     = clampPage initialPage numPages
  /\ (forall num,
        (1 <= num <= numPages -> clampPage num numPages = num)
        /\ (num < 1 -> clampPage num numPages = 1)
        /\ (1 <= numPages < num -> clampPage num numPages = numPages)
        /\ (numPages <= 0 -> clampPage num numPages = 1))
  /\ (forall num currentScale r,
        pdfDoc r = Some numPages ->
        pendingPages (renderPage num currentScale r)
        = (pendingPages r ++ [(clampPage num numPages, currentScale)])%list).
Proof.
  intros v.
  assert (Ht : totalPages v = numPages).
  { unfold v, browse. now rewrite navigate_totalPages. }
  split; [exact Ht|]. split; [|split; [|split; [|split; [|split; [|split;
    [|split; [|split]]]]]]].
  - intros Hn.
    assert (H0 : inRange (loaded initialPage numPages
                            (initialView initialPage))).
    { unfold inRange. cbn. apply clampPage_range, Hn. }
    destruct (browse_inRange events _ H0) as [Hr _].
    fold (browse initialPage numPages events) in Hr. fold v in Hr.
    unfold inRange in Hr. now rewrite Ht in Hr.
  - intros Hn.
    assert (Hc : currentPage v = 1).
    { unfold v, browse. apply browse_no_pages; cbn; [exact Hn|].
      unfold clampPage. lia. }
    split; [exact Hc|]. unfold previousDisabled, nextDisabled.
    rewrite Hc, Ht. split; [reflexivity|].
    replace (1 >=? numPages) with true by (symmetry; apply Z.geb_le; lia).
    reflexivity.
  - intros H1. unfold clickPrevious, previousDisabled, previousPage,
      setCurrentPage.
    rewrite H1. cbn. destruct v; cbn in *. subst. auto.
  - intros H1. unfold clickNext, nextDisabled, nextPage, setCurrentPage.
    rewrite H1, Ht.
    replace (numPages >=? numPages) with true
      by (symmetry; apply Z.geb_le; lia).
    replace (Z.min numPages (numPages + 1)) with numPages by lia.
    cbn. destruct v; cbn in *. subst. auto.
  - unfold clickPrevious. intros E. rewrite E.
    unfold previousDisabled in E. apply orb_false_iff in E.
    destruct E as [E _]. apply Z.leb_gt in E. cbn. lia.
  - unfold clickNext. intros E. rewrite E.
    unfold nextDisabled in E. apply orb_false_iff in E.
    destruct E as [E _]. rewrite Z.geb_leb in E. apply Z.leb_gt in E.
    cbn. lia.
  - reflexivity.
  - intros num. unfold clampPage. lia.
  - intros num sc r Hd. unfold renderPage. rewrite Hd. reflexivity.
Qed.

(** C7 as stated fails on a loaded document without pages (one that
    [extractTextFromPdf] foresees, and that [processFile] stores): the
    viewer shows page 1 of 0, outside the empty range. *)
Lemma page_out_of_range_without_pages :
  currentPage (browse 1 0 []) = 1 /\ totalPages (browse 1 0 []) = 0
  /\ ~ inRange (browse 1 0 []).
Proof.
  split; [reflexivity|]. split; [reflexivity|].
  unfold inRange. cbn. lia.
Qed.

End Navigation.

(** ** Rendering and cancellation *)

Section Rendering.
Import ClauseModal.

Lemma setStatus_length (t : nat) (st : Status) (ts : list Task) :
  List.length (setStatus t st ts) = List.length ts.
Proof.
  revert t. induction ts as [|k r IH]; intros [|t]; cbn; auto.
Qed.

Lemma statusOf_setStatus_same (t : nat) (st : Status) (ts : list Task) :
  (t < List.length ts)%nat -> statusOf (setStatus t st ts) t = Some st.
Proof.
  revert t. induction ts as [|k r IH]; intros [|t] Hl; cbn in *;
    try lia; [reflexivity|].
  apply IH. lia.
Qed.

Lemma statusOf_setStatus_other (t t' : nat) (st : Status) (ts : list Task) :
  t <> t' -> statusOf (setStatus t st ts) t' = statusOf ts t'.
Proof.
  revert t t'. induction ts as [|k r IH]; intros [|t] [|t'] Hne; cbn;
    try reflexivity; try congruence.
  apply IH. congruence.
Qed.

Lemma statusOf_Some_lt (ts : list Task) (t : nat) (st : Status) :
  statusOf ts t = Some st -> (t < List.length ts)%nat.
Proof.
  unfold statusOf. intros H. apply nth_error_Some.
  destruct (nth_error ts t); [discriminate|discriminate H].
Qed.

Lemma isRunning_true (ts : list Task) (t : nat) :
  isRunning ts t = true -> statusOf ts t = Some Running.
Proof.
  unfold isRunning. destruct (statusOf ts t) as [[]|]; congruence.
Qed.

(** Writing a status changes that task's status and no other. *)
Lemma statusOf_setStatus (t t' : nat) (st st' : Status) (ts : list Task) :
  statusOf (setStatus t st ts) t' = Some st' ->
  (t' = t /\ st' = st) \/ (t' <> t /\ statusOf ts t' = Some st').
Proof.
  intros H. destruct (Nat.eq_dec t t') as [<-|Hne].
  - left. split; [reflexivity|].
    assert (Hl : (t < List.length ts)%nat).
    { apply statusOf_Some_lt in H. now rewrite setStatus_length in H. }
    rewrite statusOf_setStatus_same in H by exact Hl. congruence.
  - right. rewrite statusOf_setStatus_other in H by exact Hne. auto.
Qed.

Lemma statusOf_app_new (ts : list Task) (k : Task) (t : nat) (st : Status) :
  statusOf (ts ++ [k]) t = Some st ->
  statusOf ts t = Some st \/ (t = List.length ts /\ st = status k).
Proof.
  unfold statusOf. intros H.
  destruct (Nat.lt_ge_cases t (List.length ts)) as [Hl|Hl].
  - left. now rewrite nth_error_app1 in H.
  - right. rewrite nth_error_app2 in H by exact Hl.
    destruct (t - List.length ts)%nat as [|n] eqn:E; cbn in H.
    + split; [lia|congruence].
    + destruct n; discriminate.
Qed.

Lemma cancelCurrent_length (r : Render) :
  List.length (cancelCurrent r) = List.length (tasks r).
Proof.
  unfold cancelCurrent. destruct (renderTaskRef r) as [t|]; [|reflexivity].
  destruct (isRunning (tasks r) t); [apply setStatus_length|reflexivity].
Qed.

(** [cancel()] turns the running task of the ref into a cancelled one and
    changes no other status. *)
Lemma cancelCurrent_status (r : Render) (t : nat) (st : Status) :
  statusOf (cancelCurrent r) t = Some st ->
  statusOf (tasks r) t = Some st
  \/ (st = Cancelled /\ renderTaskRef r = Some t
      /\ statusOf (tasks r) t = Some Running).
Proof.
  unfold cancelCurrent. destruct (renderTaskRef r) as [t0|]; [|auto].
  destruct (isRunning (tasks r) t0) eqn:Hr; [|auto].
  intros H. apply statusOf_setStatus in H as [[-> ->]|[_ H]]; [|auto].
  right. auto using isRunning_true.
Qed.

Lemma cancelCurrent_keeps (r : Render) (t : nat) (st : Status) :
  st <> Running -> statusOf (tasks r) t = Some st ->
  statusOf (cancelCurrent r) t = Some st.
Proof.
  intros Hst H. unfold cancelCurrent.
  destruct (renderTaskRef r) as [t0|]; [|exact H].
  destruct (isRunning (tasks r) t0) eqn:Hr; [|exact H].
  apply isRunning_true in Hr.
  rewrite statusOf_setStatus_other; [exact H|].
  intros ->. congruence.
Qed.

Lemma wellFormed_cancel (r : Render) (v : View) (d : option Z)
  (p : list (Z * Q)) :
  wellFormed r ->
  wellFormed (mkRender v d (renderTaskRef r) (cancelCurrent r) p
                (awaiting r) (canvas r)).
Proof.
  intros (Ha & Hc & Hb). unfold wellFormed, refIsNewest, wholePageFinished,
    staleOnlyNewest. cbn. rewrite cancelCurrent_length.
  split; [exact Ha|]. split.
  - intros t Ht. apply cancelCurrent_keeps; [discriminate|auto].
  - intros t b Ht Hs.
    apply cancelCurrent_status in Hs as [Hs|(_ & Hr & _)]; eauto.
Qed.

Lemma step_wellFormed (r : Render) (e : RenderEvent) :
  wellFormed r -> wellFormed (step r e).
Proof.
  intros Hwf. destruct e as [|p n|m| |num sc|i|i|t|t|t|t]; cbn.
  - exact Hwf.
  - unfold loadSucceeded, renderPage. cbn.
    apply (wellFormed_cancel
             (mkRender (loaded p n (view r)) (Some n) (renderTaskRef r)
                (tasks r) (pendingPages r) (awaiting r) (canvas r))).
    exact Hwf.
  - exact Hwf.
  - now apply wellFormed_cancel.
  - unfold renderPage. destruct (pdfDoc r); [|exact Hwf].
    now apply wellFormed_cancel.
  - unfold pageResolved.
    destruct (nth_error (pendingPages r) i) as [[pageNum sc]|]; [|exact Hwf].
    unfold wellFormed, refIsNewest, wholePageFinished, staleOnlyNewest. cbn.
    rewrite length_app. cbn.
    split; [intros t [= <-]; lia|]. split; discriminate.
  - unfold pageRejected.
    destruct (nth_error (pendingPages r) i) as [[pageNum sc]|]; exact Hwf.
  - unfold paint. destruct (isRunning (tasks r) t) eqn:Hr; [|exact Hwf].
    apply isRunning_true in Hr. destruct Hwf as (Ha & Hc & Hb).
    unfold wellFormed, refIsNewest, wholePageFinished, staleOnlyNewest. cbn.
    split; [exact Ha|]. split; [discriminate|].
    intros t' b [= <- <-] Hs. congruence.
  - unfold finish. destruct (isRunning (tasks r) t) eqn:Hr; [|exact Hwf].
    apply isRunning_true in Hr. destruct Hwf as (Ha & Hc & Hb).
    pose proof (statusOf_Some_lt _ _ _ Hr) as Hl.
    unfold wellFormed, refIsNewest, wholePageFinished, staleOnlyNewest. cbn.
    rewrite setStatus_length.
    split; [exact Ha|]. split.
    + intros t' [= <-]. now apply statusOf_setStatus_same.
    + intros t' b [= <- <-] Hs.
      rewrite statusOf_setStatus_same in Hs by exact Hl. discriminate.
  - unfold fail. destruct (isRunning (tasks r) t) eqn:Hr; [|exact Hwf].
    apply isRunning_true in Hr. destruct Hwf as (Ha & Hc & Hb).
    unfold wellFormed, refIsNewest, wholePageFinished, staleOnlyNewest. cbn.
    rewrite setStatus_length.
    split; [exact Ha|]. split.
    + intros t' Ht'. specialize (Hc t' Ht').
      rewrite statusOf_setStatus_other; [exact Hc|]. intros ->. congruence.
    + intros t' b Ht' Hs.
      apply statusOf_setStatus in Hs as [[_ Hs]|[_ Hs]]; [discriminate|].
      eauto.
  - unfold settle. destruct (existsb (Nat.eqb t) (awaiting r)); [|exact Hwf].
    destruct (nth_error (tasks r) t) as [[pageNum sc []]|]; exact Hwf.
Qed.

Lemma initial_wellFormed (initialPage : Z) :
  wellFormed (initialRender initialPage).
Proof.
  unfold wellFormed, refIsNewest, wholePageFinished, staleOnlyNewest. cbn.
  repeat split; discriminate.
Qed.

Lemma fold_step_wellFormed (events : list RenderEvent) (r : Render) :
  wellFormed r -> wellFormed (fold_left step events r).
Proof.
  revert r. induction events as [|e es IH]; intros r Hr; [exact Hr|].
  cbn. apply IH. now apply step_wellFormed.
Qed.

Lemma quiet_cancel (r : Render) (v : View) (d : option Z)
  (p : list (Z * Q)) :
  quiet r -> error v = None ->
  quiet (mkRender v d (renderTaskRef r) (cancelCurrent r) p
           (awaiting r) (canvas r)).
Proof.
  intros [He Hf] Hv. split; [exact Hv|]. cbn.
  intros t Hs. apply cancelCurrent_status in Hs as [Hs|(Hs & _)];
    [now apply (Hf t)|discriminate].
Qed.

Lemma step_quiet (r : Render) (e : RenderEvent) :
  isFailure e = false -> quiet r -> quiet (step r e).
Proof.
  intros Hne [He Hf].
  destruct e as [|p n|m| |num sc|i|i|t|t|t|t]; cbn in *; try discriminate.
  - split; [reflexivity|exact Hf].
  - unfold loadSucceeded, renderPage. cbn.
    apply (quiet_cancel
             (mkRender (loaded p n (view r)) (Some n) (renderTaskRef r)
                (tasks r) (pendingPages r) (awaiting r) (canvas r)));
      [split|]; assumption.
  - apply quiet_cancel; [split|]; assumption.
  - unfold renderPage. destruct (pdfDoc r); [|now split].
    apply quiet_cancel; [split|]; assumption.
  - unfold pageResolved.
    destruct (nth_error (pendingPages r) i) as [[pageNum sc]|]; [|now split].
    split; [exact He|]. cbn. intros t Hs.
    apply statusOf_app_new in Hs as [Hs|[_ Hs]];
      [now apply (Hf t)|discriminate].
  - unfold paint. destruct (isRunning (tasks r) t); now split.
  - unfold finish. destruct (isRunning (tasks r) t); [|now split].
    split; [exact He|]. cbn. intros t' Hs.
    apply statusOf_setStatus in Hs as [[_ Hs]|[_ Hs]];
      [discriminate|now apply (Hf t')].
  - unfold settle. destruct (existsb (Nat.eqb t) (awaiting r)); [|now split].
    destruct (nth_error (tasks r) t) as [[pageNum sc st]|] eqn:En;
      [|now split].
    destruct st; try (now split).
    exfalso. apply (Hf t). unfold statusOf. now rewrite En.
Qed.

Lemma fold_step_quiet (events : list RenderEvent) (r : Render) :
  forallb (fun e => negb (isFailure e)) events = true ->
  quiet r -> quiet (fold_left step events r).
Proof.
  revert r. induction events as [|e es IH]; intros r Hall Hr; [exact Hr|].
  cbn in Hall. apply andb_prop in Hall as [He Hes].
  cbn. apply IH; [exact Hes|].
  apply step_quiet; [|exact Hr].
  now destruct (isFailure e).
Qed.

(** The [catch] does nothing with a cancellation. *)
Lemma settle_cancelled (r : Render) (t : nat) :
  statusOf (tasks r) t = Some Cancelled -> view (settle t r) = view r.
Proof.
  unfold statusOf, settle. intros Hs.
  destruct (existsb (Nat.eqb t) (awaiting r)); [|reflexivity].
  destruct (nth_error (tasks r) t) as [[pageNum sc st]|]; [|reflexivity].
  cbn in Hs. injection Hs as ->. reflexivity.
Qed.

(** What [cancel()] does achieve, for the tasks it reaches: in every run of
    the viewer, a render task that was cancelled (by a later [renderPage]
    or by the cleanup) never has its whole page on the canvas, and once a
    later render has started nothing of it is left on the canvas; resuming
    the call that awaited it changes neither the error nor the loading
    state, and a run without a genuine pdf.js failure shows no error,
    however many renders were cancelled. *)
Theorem cancelled_render_never_shown (initialPage : Z)
  (events : list RenderEvent) (t : nat) :
  let r := run initialPage events in
  statusOf (tasks r) t = Some Cancelled ->
  canvas r <> Some (t, true)
  /\ ((S t < List.length (tasks r))%nat ->
      forall b, canvas r <> Some (t, b))
  /\ view (settle t r) = view r
  /\ (forallb (fun e => negb (isFailure e)) events = true ->
      error (view r) = None).
Proof.
  intros r Hs.
  destruct (fold_step_wellFormed events _ (initial_wellFormed initialPage))
    as (Ha & Hc & Hb).
  fold (run initialPage events) in Ha, Hc, Hb. fold r in Ha, Hc, Hb.
  split; [|split; [|split]].
  - intros Hcv. specialize (Hc t Hcv). congruence.
  - intros Hl b Hcv. specialize (Hb t b Hcv Hs). lia.
  - now apply settle_cancelled.
  - intros Hall.
    apply (fold_step_quiet events (initialRender initialPage) Hall).
    split; [reflexivity|]. intros t' H. unfold statusOf in H.
    destruct t'; discriminate.
Qed.

End Rendering.

(** ** Worked instances *)

Section Instances.
Import App.

(** C2 (as stated) fails: in the batch a, b (corrupt), c the file c is
    never ingested, neither into the store nor into the library in
    memory. *)
Lemma handleFileUpload_skips_later_files :
  ~ exists d,
      (In d (docStore (world Sample.afterBatch))
       \/ In d (documents (app Sample.afterBatch)))
      /\ RailDocument.name d = "c.pdf".
Proof.
  vm_compute. intros (d & [[H|[]]|[]] & Hn). subst d. discriminate Hn.
Qed.

Lemma handleFileUpload_aborts_witness :
  exists s',
    handleFileUpload Sample.env
      ([Sample.good] ++ Sample.corrupt :: [Sample.later]) Sample.start
    = (Ok tt, s')
    /\ world s' = world Sample.afterGood
    /\ error (app s') = Some PdfService.extractionError
    /\ isProcessingFile (app s') = false.
Proof.
  apply (handleFileUpload_aborts_on_extraction_failure Sample.env
           [Sample.good] [Sample.later] Sample.corrupt Sample.start
           Sample.afterGood Sample.ingested); reflexivity.
Defined.


Lemma cancelled_render_witness :
  ClauseModal.statusOf
    (ClauseModal.tasks (ClauseModal.run 1 Sample.superseded)) 0
  = Some ClauseModal.Cancelled
  /\ ClauseModal.canvas (ClauseModal.run 1 Sample.superseded)
     <> Some (0%nat, true)
  /\ ClauseModal.error
       (ClauseModal.view (ClauseModal.run 1 Sample.superseded)) = None.
Proof.
  pose proof (cancelled_render_never_shown 1 Sample.superseded 0 eq_refl)
    as (H1 & _ & _ & H4).
  split; [reflexivity|]. split; [exact H1|]. apply H4. reflexivity.
Defined.

Lemma handleAsk_remote_failure_witness :
  askGuard (app Sample.library) = false
  /\ chatHistory (app (snd (handleAsk Sample.env Sample.library)))
     = (chatHistory (app Sample.library)
        ++ [userMessage Sample.env Sample.library])%list
  /\ error (app (snd (handleAsk Sample.env Sample.library)))
     = Some GeminiService.missingKey.
Proof.
  pose proof (handleAsk_remote_failure Sample.env Sample.library)
    as (_ & _ & H).
  destruct (H eq_refl eq_refl) as [_ H'].
  destruct (H' GeminiService.missingKey eq_refl)
    as (_ & H2 & _ & _ & _ & _ & H6 & _).
  split; [reflexivity|]. split; [exact H2|exact H6].
Defined.

(** C5 (as stated) fails: two messages of the same millisecond come back
    in key order, "a" before "b", not in the order they were appended. *)
Lemma chat_history_reorders_ties :
  Sample.reloaded <> Ok [Sample.first; Sample.tied].
Proof. vm_compute. intros H. discriminate H. Qed.

Lemma chat_history_roundtrip_witness :
  exists w' history,
    Storage.persistAll [Sample.first; Sample.second] Sample.emptyWorld
    = (Ok tt, w')
    /\ fst (Storage.getChatHistory w') = Ok history
    /\ history = [Sample.first; Sample.second].
Proof.
  destruct (chat_history_roundtrip [Sample.first; Sample.second]
              Sample.emptyWorld eq_refl)
    as (w' & history & Hrun & Hget & _ & _ & Hid).
  - cbn. repeat constructor; cbn; intuition discriminate.
  - exists w', history. split; [exact Hrun|]. split; [exact Hget|].
    apply Hid. cbn.
    repeat constructor; unfold JsArray.keyLt; cbn; lia.
Defined.

Lemma overlay_size_floor_witness :
  (400 <= ClauseModal.width
            (ClauseModal.session 1280 800
               [ClauseModal.ResizeStart 900 700;
                ClauseModal.MouseMove (-5000) (-5000);
                ClauseModal.MouseUp]))%Q.
Proof.
  refine (proj1 (proj1 (overlay_size_floor 1280 800 _ _ _)));
    unfold Qle; cbn; lia.
Defined.

Lemma page_stays_in_range_witness :
  (1 <= ClauseModal.currentPage
          (ClauseModal.browse 7 3
             [ClauseModal.Rendered; ClauseModal.Next; ClauseModal.Previous;
              ClauseModal.Previous; ClauseModal.Previous])
     <= 3)%Z.
Proof.
  refine (proj1 (proj2 (page_stays_in_range 7 3 _)) _). lia.
Defined.

Lemma zero_page_pdf_witness :
  PdfService.extractTextFromPdf Sample.env Sample.noPages
  = Ok "[Error: This PDF contains no readable pages.]".
Proof.
  refine (proj1 (zero_page_pdf_is_stored Sample.env Sample.noPages
                   (PdfDocument.mk 0 (fun _ => None)) Sample.start
                   _ _ _ _ _)); reflexivity.
Defined.

Lemma citation_opening_page_witness :
  exists ac,
    activeClause
      (app (snd (handleCitationClick (Sample.cite (Some (-2))) Sample.library)))
    = Some ac
    /\ ActiveClause.page ac = 1%Z.
Proof.
  pose proof (citation_opening_page (Sample.cite (Some (-2))) Sample.library)
    as H.
  cbn in H. destruct H as (ac & Hac & _ & _ & Hp & _).
  exists ac. split; [exact Hac|]. apply (proj1 Hp). lia.
Defined.

(** C10 (as stated) fails: with "NR-L2-TRK-001.pdf" deleted, the citation
    of the answer does not take the not-found path; it opens
    "NR-L2-TRK-001 Issue 2.pdf", whose name contains the citation's. *)
Lemma deleted_citation_opens_other_document :
  error (app Sample.afterClick) <> Some (notFound (Sample.cite (Some 4)))
  /\ option_map ActiveClause.standardName (activeClause (app Sample.afterClick))
     = Some "NR-L2-TRK-001 Issue 2.pdf".
Proof. vm_compute. split; [discriminate|reflexivity]. Qed.

Lemma removeDocument_frame_witness :
  Storage.available (world Sample.library) = true
  /\ chatStore (world Sample.afterDelete) = chatStore (world Sample.library)
  /\ chatHistory (app Sample.afterDelete) = chatHistory (app Sample.library).
Proof.
  split; [reflexivity|].
  exact (proj1 (removeDocument_frame "id-1" (Sample.cite (Some 4))
                  Sample.library eq_refl)).
Defined.

End Instances.

(* ===================================================================== *)
(** * Further properties of the code *)
(* ===================================================================== *)

(** ** The object stores *)

Section ObjectStore.
Import Storage.
Context {A : Type} (key : A -> string).

Lemma compare_lt_trans (a b c : string) :
  String.compare a b = Lt -> String.compare b c = Lt ->
  String.compare a c = Lt.
Proof.
  intros H1 H2.
  apply OrderedTypeEx.String_as_OT.cmp_lt in H1, H2.
  apply OrderedTypeEx.String_as_OT.cmp_lt.
  eapply OrderedTypeEx.String_as_OT.lt_trans; eassumption.
Qed.

Lemma compare_refl (a : string) : String.compare a a = Eq.
Proof.
  destruct (String.compare a a) eqn:E; [reflexivity| |];
    pose proof (String.compare_antisym a a) as H; rewrite E in H;
    discriminate.
Qed.

Lemma compare_gt_lt (a b : string) :
  String.compare a b = Gt -> String.compare b a = Lt.
Proof.
  intros H. rewrite String.compare_antisym, H. reflexivity.
Qed.

Lemma compare_lt_neq (a b : string) : String.compare a b = Lt -> a <> b.
Proof. intros H ->. rewrite compare_refl in H. discriminate. Qed.

(** Membership after [put], in a store in key order. *)
Lemma put_In_iff (x y : A) (l : list A) :
  keySorted key l ->
  In y (put key x l) <-> y = x \/ (In y l /\ key y <> key x).
Proof.
  unfold keySorted. induction l as [|z r IH]; intros Hs; cbn.
  - intuition.
  - inversion Hs as [|? ? Hr Hz]; subst. rewrite Forall_forall in Hz.
    destruct (String.compare (key x) (key z)) eqn:E; cbn.
    + apply String.compare_eq_iff in E.
      split.
      * intros [<-|Hy]; [auto|]. right. split; [auto|].
        rewrite E. intros Heq. specialize (Hz _ Hy).
        apply compare_lt_neq in Hz. congruence.
      * intros [->|[[<-|Hy] Hne]]; [auto|congruence|auto].
    + split.
      * intros [<-|[<-|Hy]]; [auto| |].
        -- right. split; [auto|]. apply compare_lt_neq in E. congruence.
        -- right. split; [auto|]. specialize (Hz _ Hy).
           pose proof (compare_lt_trans _ _ _ E Hz) as Hlt.
           apply compare_lt_neq in Hlt. congruence.
      * intros [->|[Hy _]]; auto.
    + rewrite IH by exact Hr. split.
      * intros [<-|[->|[Hy Hne]]]; [|auto|auto].
        right. split; [auto|]. apply compare_gt_lt, compare_lt_neq in E.
        exact E.
      * intros [->|[[<-|Hy] Hne]]; auto.
Qed.

Lemma put_keySorted (x : A) (l : list A) :
  keySorted key l -> keySorted key (put key x l).
Proof.
  unfold keySorted. induction l as [|z r IH]; intros Hs; cbn.
  - repeat constructor.
  - inversion Hs as [|? ? Hr Hz]; subst.
    destruct (String.compare (key x) (key z)) eqn:E.
    + apply String.compare_eq_iff in E. constructor; [exact Hr|].
      now rewrite E.
    + constructor; [exact Hs|]. constructor; [exact E|].
      eapply Forall_impl; [|exact Hz]. cbn. intros a Ha.
      eapply compare_lt_trans; eassumption.
    + constructor; [now apply IH|].
      apply Forall_forall. intros a Ha.
      apply (put_In_iff x a r Hr) in Ha as [->|[Ha _]].
      * now apply compare_gt_lt.
      * rewrite Forall_forall in Hz. now apply Hz.
Qed.

Lemma delete_keySorted (k : string) (l : list A) :
  keySorted key l -> keySorted key (delete key k l).
Proof.
  unfold keySorted, delete. induction l as [|z r IH]; intros Hs; cbn;
    [constructor|].
  inversion Hs as [|? ? Hr Hz]; subst.
  destruct (negb (String.eqb (key z) k)); [|now apply IH].
  constructor; [now apply IH|].
  rewrite Forall_forall in *. intros a Ha. apply filter_In in Ha as [Ha _].
  now apply Hz.
Qed.

(** Putting the record that was just put changes nothing. *)
Lemma put_put (x : A) (l : list A) : put key x (put key x l) = put key x l.
Proof.
  induction l as [|z r IH]; cbn.
  - now rewrite compare_refl.
  - destruct (String.compare (key x) (key z)) eqn:E; cbn.
    + now rewrite compare_refl.
    + now rewrite compare_refl.
    + rewrite E. now rewrite IH.
Qed.

Lemma delete_absent (k : string) (l : list A) :
  ~ In k (map key l) -> delete key k l = l.
Proof.
  unfold delete. induction l as [|z r IH]; intros Hn; cbn; [reflexivity|].
  destruct (String.eqb_spec (key z) k) as [E|E]; cbn.
  - exfalso. apply Hn. now left.
  - f_equal. apply IH. intros Hi. apply Hn. now right.
Qed.

Lemma delete_put_fresh (x : A) (l : list A) :
  ~ In (key x) (map key l) -> delete key (key x) (put key x l) = l.
Proof.
  induction l as [|z r IH]; intros Hn; cbn.
  - unfold delete. cbn. now rewrite String.eqb_refl.
  - destruct (String.compare (key x) (key z)) eqn:E.
    + apply String.compare_eq_iff in E. exfalso. apply Hn. now left.
    + unfold delete. cbn [filter]. rewrite String.eqb_refl. cbn [negb].
      exact (delete_absent (key x) (z :: r) Hn).
    + unfold delete. cbn.
      destruct (String.eqb_spec (key z) (key x)) as [E'|E']; cbn.
      * exfalso. apply Hn. left. congruence.
      * f_equal. apply IH. intros Hi. apply Hn. now right.
Qed.

End ObjectStore.

Section StoreRequests.
Import Storage.

Lemma request_run {A} (op : World -> A * World) (w : World) :
  available w = true ->
  request op w =
  (Ok (fst (op (with_faults (tl (faults w)) w))),
   snd (op (with_faults (tl (faults w)) w))).
Proof.
  unfold available, request. intros Hav.
  destruct (hd None (faults w)); [discriminate|].
  now destruct (op (with_faults (tl (faults w)) w)).
Qed.

Lemma request_refused {A} (op : World -> A * World) (w : World) :
  available w = false ->
  exists msg, request op w = (Throw msg, with_faults (tl (faults w)) w).
Proof.
  unfold available, request. intros Hav.
  destruct (hd None (faults w)) as [msg|]; [|discriminate].
  now exists msg.
Qed.

(** X1: [saveDocument] and [saveChatMessage] are upserts by identifier
    that keep their store in key order: after a save the store holds the
    saved record, no other record with its identifier, and every record
    with another identifier exactly as before; the other store is
    untouched. *)
Theorem save_is_upsert (doc : RailDocument.t) (message : ChatMessage.t)
  (w : World) :
  available w = true ->
  keySorted RailDocument.id (docStore w) ->
  keySorted ChatMessage.id (chatStore w) ->
  (fst (saveDocument doc w) = Ok tt
   /\ keySorted RailDocument.id (docStore (snd (saveDocument doc w)))
   /\ (forall d, In d (docStore (snd (saveDocument doc w))) <->
         d = doc
         \/ (In d (docStore w) /\ RailDocument.id d <> RailDocument.id doc))
   /\ chatStore (snd (saveDocument doc w)) = chatStore w)
  /\ (fst (saveChatMessage message w) = Ok tt
      /\ keySorted ChatMessage.id (chatStore (snd (saveChatMessage message w)))
      /\ (forall m, In m (chatStore (snd (saveChatMessage message w))) <->
            m = message
            \/ (In m (chatStore w)
                /\ ChatMessage.id m <> ChatMessage.id message))
      /\ docStore (snd (saveChatMessage message w)) = docStore w).
Proof.
  intros Hav Hd Hc. split.
  - unfold saveDocument. rewrite (request_run _ w Hav). cbn.
    split; [reflexivity|]. split; [now apply put_keySorted|].
    split; [|reflexivity]. intros d. now apply put_In_iff.
  - unfold saveChatMessage. rewrite (request_run _ w Hav). cbn.
    split; [reflexivity|]. split; [now apply put_keySorted|].
    split; [|reflexivity]. intros m. now apply put_In_iff.
Qed.

(** X2: saving the same document twice leaves the document store as the
    first save left it. *)
Theorem saveDocument_twice (doc : RailDocument.t) (w : World) :
  available w = true ->
  available (snd (saveDocument doc w)) = true ->
  docStore (snd (saveDocument doc (snd (saveDocument doc w))))
  = docStore (snd (saveDocument doc w)).
Proof.
  intros Hav Hav'. unfold saveDocument in *.
  rewrite (request_run _ _ Hav'). rewrite (request_run _ w Hav) in *. cbn.
  apply put_put.
Qed.

(** X3: [deleteDocument] removes the records with the given identifier and
    nothing else, keeps the key order and leaves the chat store alone;
    deleting an identifier that is not stored changes no record, and
    deleting a document right after it was saved under a new identifier
    gives the store back as it was. *)
Theorem deleteDocument_removes_only (id : string) (doc : RailDocument.t)
  (w : World) :
  available w = true ->
  keySorted RailDocument.id (docStore w) ->
  let w' := snd (deleteDocument id w) in
  fst (deleteDocument id w) = Ok tt
  /\ keySorted RailDocument.id (docStore w')
  /\ (forall d, In d (docStore w') <->
        In d (docStore w) /\ RailDocument.id d <> id)
  /\ chatStore w' = chatStore w
  /\ (~ In id (map RailDocument.id (docStore w)) -> docStore w' = docStore w)
  /\ (~ In (RailDocument.id doc) (map RailDocument.id (docStore w)) ->
      available (snd (saveDocument doc w)) = true ->
      docStore (snd (deleteDocument (RailDocument.id doc)
                       (snd (saveDocument doc w))))
      = docStore w).
Proof.
  intros Hav Hs w'. subst w'. unfold deleteDocument.
  rewrite (request_run _ w Hav). cbn.
  split; [reflexivity|]. split; [now apply delete_keySorted|].
  split; [intros d; apply delete_In|]. split; [reflexivity|].
  split; [apply delete_absent|].
  intros Hfresh Hav'. rewrite (request_run _ _ Hav').
  unfold saveDocument in *. rewrite (request_run _ w Hav) in *. cbn.
  now apply delete_put_fresh.
Qed.

End StoreRequests.

(** ** Start-up, clearing and removal *)

Section Reconcile.
Import App.

(** [loadAppData] when no fault is to come. *)
Lemma loadAppData_loaded (s : Sys) :
  faults (world s) = [] ->
  documents (app (snd (loadAppData s))) = docStore (world s)
  /\ chatHistory (app (snd (loadAppData s)))
     = JsArray.sort Storage.byTimestamp (chatStore (world s)).
Proof.
  intros Hf.
  unfold loadAppData, tryFinally, tryCatch, bind, promiseAll, liftW,
    Storage.getAllDocuments, Storage.getChatHistory, Storage.request,
    setDocuments, setChatHistory, setIsLoadingLibrary, setApp, modify, ret.
  cbn. rewrite Hf. cbn. split; reflexivity.
Qed.

(** X4: [loadAppData] never throws and always clears the loading flag; it
    writes nothing to the stores; when both reads succeed the library in
    memory becomes the document store and the transcript the chat store
    in ascending timestamp order, and when one of the two reads fails both
    are left as they were. *)
Theorem loadAppData_reconciles (s : Sys) :
  let s' := snd (loadAppData s) in
  let first := hd None (faults (world s)) in
  let second := hd None (tl (faults (world s))) in
  fst (loadAppData s) = Ok tt
  /\ isLoadingLibrary (app s') = false
  /\ docStore (world s') = docStore (world s)
  /\ chatStore (world s') = chatStore (world s)
  /\ log (world s') = log (world s)
  /\ (first = None -> second = None ->
      documents (app s') = docStore (world s)
      /\ chatHistory (app s')
         = JsArray.sort Storage.byTimestamp (chatStore (world s)))
  /\ (first <> None \/ second <> None ->
      documents (app s') = documents (app s)
      /\ chatHistory (app s') = chatHistory (app s)).
Proof.
  intros s' first second. subst s' first second.
  unfold loadAppData, tryFinally, tryCatch, bind, promiseAll, liftW,
    Storage.getAllDocuments, Storage.getChatHistory, Storage.request,
    setDocuments, setChatHistory, setIsLoadingLibrary, setApp, modify, ret.
  cbn.
  destruct (faults (world s)) as [|[m1|] [|[m2|] r]]; cbn;
    repeat (match goal with |- _ /\ _ => split end);
    try reflexivity; intros; try discriminate; auto;
    match goal with
    | H : _ \/ _ |- _ => destruct H; congruence
    end.
Qed.

(** X5: clearing the chat is all or nothing: when the store accepts the
    request both the persisted collection and the transcript in memory are
    emptied, the documents staying as they are, and a reload then yields
    no message; when the store refuses, the handler throws and neither is
    changed. *)
Theorem handleClearChat_all_or_nothing (s : Sys) :
  let s' := snd (handleClearChat s) in
  (Storage.available (world s) = true ->
   fst (handleClearChat s) = Ok tt
   /\ chatHistory (app s') = [] /\ chatStore (world s') = []
   /\ documents (app s') = documents (app s)
   /\ docStore (world s') = docStore (world s)
   /\ (faults (world s') = [] ->
       chatHistory (app (snd (loadAppData s'))) = []))
  /\ (Storage.available (world s) = false ->
      (exists msg, fst (handleClearChat s) = Throw msg)
      /\ chatHistory (app s') = chatHistory (app s)
      /\ chatStore (world s') = chatStore (world s)).
Proof.
  intros s'. subst s'.
  unfold handleClearChat, bind, liftW, Storage.clearChatHistory,
    setChatHistory, setApp, modify.
  split; intros Hav.
  - rewrite (request_run _ _ Hav). cbn.
    repeat split; try reflexivity.
    intros Hf.
    match goal with
    | |- chatHistory (app (snd (loadAppData ?x))) = [] =>
        destruct (loadAppData_loaded x Hf) as [_ H]
    end.
    now rewrite H.
  - destruct (request_refused
                (fun w => (tt, emit EvClearChat (with_chatStore [] w)))
                (world s) Hav) as [msg Hr].
    rewrite Hr. cbn. eauto.
Qed.

(** X6: [removeDocument] never throws and keeps the library in memory in
    step with the document store: if the two list the same records before,
    they do after, whether the store accepted the delete or refused it. *)
Theorem removeDocument_keeps_mirror (id : string) (s : Sys) :
  mirrors s ->
  fst (removeDocument id s) = Ok tt
  /\ mirrors (snd (removeDocument id s)).
Proof.
  intros Hm. destruct (Storage.available (world s)) eqn:Hav.
  - rewrite (removeDocument_run id s Hav). split; [reflexivity|].
    unfold mirrors in *. cbn. intros d.
    rewrite delete_In, filter_In, Hm.
    destruct (String.eqb_spec (RailDocument.id d) id); cbn;
      intuition congruence.
  - rewrite (removeDocument_refused id s Hav). split; [reflexivity|].
    exact Hm.
Qed.

End Reconcile.

(** ** Asking and ingesting when everything works *)

Section HappyPaths.
Import App.
Local Open Scope js_scope.
Variable env : Env.

(** X7: when the guard lets the question through, the store accepts both
    messages and the remote query answers, [handleAsk] appends the user
    message and then the assistant message, which carries the answer and
    its citations, persists both in that order around the single query,
    clears the input and leaves no error and no pending flag. *)
Theorem handleAsk_answered (s : Sys) (result : GeminiResponse.t) :
  askGuard (app s) = false ->
  faults (world s) = [] ->
  GeminiService.queryStandards env (inputText (app s)) (documents (app s))
    (queryCount (world s)) = Ok result ->
  let s' := snd (handleAsk env s) in
  let assistantMsg :=
    ChatMessage.mk (randomUUID env (S (uuidCount (world s)))) assistant
      (GeminiResponse.answer result) (Some (GeminiResponse.citations result))
      (dateNow env (S (clockCount (world s)))) in
  fst (handleAsk env s) = Ok tt
  /\ chatHistory (app s')
     = (chatHistory (app s) ++ [userMessage env s; assistantMsg])%list
  /\ chatStore (world s')
     = Storage.put ChatMessage.id assistantMsg
         (Storage.put ChatMessage.id (userMessage env s)
            (chatStore (world s)))
  /\ log (world s')
     = (log (world s)
        ++ [EvPutChat (ChatMessage.id (userMessage env s));
            EvQuery (inputText (app s)) (documents (app s));
            EvPutChat (ChatMessage.id assistantMsg)])%list
  /\ inputText (app s') = ""
  /\ error (app s') = None
  /\ isAsking (app s') = false
  /\ documents (app s') = documents (app s).
Proof.
  intros Hg Hf Hq s' assistantMsg. subst s' assistantMsg.
  unfold handleAsk, bind, get. cbn. rewrite Hg.
  unfold newUUID, newDate, liftW, setChatHistory, setInputText, setIsAsking,
    setError, setApp, modify, Storage.saveChatMessage, Storage.request,
    tryFinally, tryCatch, bind, queryStandards, liftW.
  cbn. rewrite Hf. cbn. rewrite Hq. cbn.
  repeat split; try reflexivity; now rewrite <- !app_assoc.
Qed.

Lemma processFile_skipped (file : File.t) (s : Sys) :
  notPdf file = true -> processFile env file s = (Ok None, s).
Proof. intros Hn. unfold processFile. now rewrite Hn. Qed.

Lemma processFiles_filter (files : list File.t)
  (acc : list RailDocument.t) (s : Sys) :
  processFiles env files acc s
  = processFiles env (filter (fun f => negb (notPdf f)) files) acc s.
Proof.
  revert acc s. induction files as [|f r IH]; intros acc s; [reflexivity|].
  cbn [filter]. destruct (notPdf f) eqn:Hn; cbn [negb processFiles].
  - unfold bind at 1. rewrite (processFile_skipped f s Hn). apply IH.
  - unfold bind. destruct (processFile env f s) as [[d|e] s1];
      [apply IH|reflexivity].
Qed.

(** X8: files that are PDFs neither by type nor by name are passed over
    without error and without any effect: the loop gives the same documents
    and the same state as on the batch without them, and a batch holding
    only such files changes nothing but the flags the handler resets. *)
Theorem upload_skips_other_files (files : list File.t) (s : Sys) :
  (forall acc,
     processFiles env files acc s
     = processFiles env (filter (fun f => negb (notPdf f)) files) acc s)
  /\ (files <> [] -> forallb notPdf files = true ->
      fst (handleFileUpload env files s) = Ok tt
      /\ world (snd (handleFileUpload env files s)) = world s
      /\ documents (app (snd (handleFileUpload env files s)))
         = documents (app s)
      /\ chatHistory (app (snd (handleFileUpload env files s)))
         = chatHistory (app s)
      /\ error (app (snd (handleFileUpload env files s))) = None
      /\ isProcessingFile (app (snd (handleFileUpload env files s))) = false).
Proof.
  split; [intros acc; apply processFiles_filter|].
  intros Hne Hall.
  assert (Hnil : filter (fun f => negb (notPdf f)) files = []).
  { clear Hne. induction files as [|f r IH]; [reflexivity|].
    cbn in Hall. apply andb_prop in Hall as [Hf Hr].
    cbn. rewrite Hf. cbn. now apply IH. }
  unfold handleFileUpload. destruct files as [|f0 r0]; [contradiction|].
  unfold bind, tryFinally, tryCatch, setIsProcessingFile, setError,
    setDocuments, setApp, modify.
  cbn -[processFiles]. rewrite processFiles_filter, Hnil. cbn.
  rewrite app_nil_r. repeat split; reflexivity.
Qed.

(** A decodable document always yields a text. *)
Lemma extract_decodable (file : File.t) :
  getDocument env (File.bytes file) <> None ->
  exists text, PdfService.extractTextFromPdf env file = Ok text.
Proof.
  intros Hd. unfold PdfService.extractTextFromPdf.
  destruct (getDocument env (File.bytes file)) as [pdf|]; [|contradiction].
  destruct (PdfDocument.numPages pdf =? 0)%Z; [eauto|].
  destruct (PdfDocument.numPages pdf >? PdfService.MAX_PAGES_CONTEXT)%Z;
    eauto.
Qed.

Lemma processFiles_ingests (files : list File.t)
  (acc : list RailDocument.t) (s : Sys) :
  Forall (ingestible env) files -> faults (world s) = [] ->
  exists docs s',
    processFiles env files acc s = (Ok (acc ++ docs)%list, s')
    /\ app s' = app s
    /\ faults (world s') = []
    /\ chatStore (world s') = chatStore (world s)
    /\ uuidCount (world s') = (uuidCount (world s) + List.length files)%nat
    /\ clockCount (world s') = (clockCount (world s) + List.length files)%nat
    /\ map RailDocument.name docs
       = map (fun f => cleanFileName (File.name f)) files
    /\ map RailDocument.content docs = map (textOf env) files
    /\ map RailDocument.pdfData docs = map File.bytes files
    /\ map RailDocument.size docs = map File.size files
    /\ map RailDocument.id docs
       = map (randomUUID env) (seq (uuidCount (world s)) (List.length files))
    /\ map RailDocument.uploadDate docs
       = map (dateNow env) (seq (clockCount (world s)) (List.length files)).
Proof.
  revert acc s. induction files as [|f r IH]; intros acc s Hall Hf.
  - exists [], s. cbn. rewrite app_nil_r, !Nat.add_0_r.
    repeat split; auto.
  - inversion Hall as [|? ? (Hn & Ho & Hd) Hr]; subst.
    destruct (extract_decodable f Hd) as [text Hx].
    assert (Hav : Storage.available (world s) = true)
      by (unfold Storage.available; now rewrite Hf).
    cbn [processFiles]. unfold bind.
    rewrite (processFile_saved env f text s Hn Ho Hx Hav).
    set (s1 := mkSys _ _).
    destruct (IH (acc ++ [builtDocument env f text (world s)])%list s1 Hr)
      as (docs & s' & Hrun & Happ & Hf' & Hc & Hu & Hk & H1 & H2 & H3 & H4
          & H5 & H6).
    { cbn. now rewrite Hf. }
    exists (builtDocument env f text (world s) :: docs), s'.
    rewrite Hrun, <- app_assoc. cbn [List.app].
    split; [reflexivity|]. split; [exact Happ|]. split; [exact Hf'|].
    split; [exact Hc|].
    cbn in Hu, Hk, H5, H6.
    split; [cbn; lia|]. split; [cbn; lia|].
    cbn [map List.length seq]. unfold textOf at 1. rewrite Hx.
    rewrite H1, H2, H3, H4, H5, H6. cbn. repeat split; reflexivity.
Qed.

(** X9: when every file of a batch is a PDF within the size limit that
    pdf.js can decode and no storage fault occurs, [handleFileUpload]
    ingests them all, in order: the library in memory grows by one document
    per file, named by [cleanFileName], with the extracted text, the size
    and the raw bytes of its file and the next identifiers and clock
    readings; no error is left and the processing flag is cleared. *)
Theorem handleFileUpload_ingests_all (files : list File.t) (s : Sys) :
  files <> [] -> Forall (ingestible env) files -> faults (world s) = [] ->
  exists docs,
    fst (handleFileUpload env files s) = Ok tt
    /\ documents (app (snd (handleFileUpload env files s)))
       = (documents (app s) ++ docs)%list
    /\ map RailDocument.name docs
       = map (fun f => cleanFileName (File.name f)) files
    /\ map RailDocument.content docs = map (textOf env) files
    /\ map RailDocument.pdfData docs = map File.bytes files
    /\ map RailDocument.size docs = map File.size files
    /\ map RailDocument.id docs
       = map (randomUUID env) (seq (uuidCount (world s)) (List.length files))
    /\ map RailDocument.uploadDate docs
       = map (dateNow env) (seq (clockCount (world s)) (List.length files))
    /\ error (app (snd (handleFileUpload env files s))) = None
    /\ isProcessingFile (app (snd (handleFileUpload env files s))) = false
    /\ chatHistory (app (snd (handleFileUpload env files s)))
       = chatHistory (app s).
Proof.
  intros Hne Hall Hf.
  unfold handleFileUpload. destruct files as [|f0 r0]; [contradiction|].
  set (files := f0 :: r0) in *.
  unfold bind, tryFinally, tryCatch, setIsProcessingFile, setError,
    setDocuments, setApp, modify.
  cbn -[processFiles files].
  match goal with
  | |- context [processFiles env files [] ?x] =>
      destruct (processFiles_ingests files [] x Hall Hf)
        as (docs & s' & Hrun & Happ & _ & _ & _ & _ & H1 & H2 & H3 & H4
            & H5 & H6);
      rewrite Hrun
  end.
  cbn in Hrun, Happ, H5, H6 |- *. rewrite Happ. cbn.
  exists docs. repeat split; assumption || reflexivity.
Qed.

End HappyPaths.

(** ** File names *)

Section FileNames.
Import App JsString.

Lemma cleanFrom_length (skip : nat) (s : string) :
  (String.length (cleanFrom skip s) <= String.length s)%nat.
Proof.
  revert skip. induction s as [|c r IH]; intros skip;
    cbn [cleanFrom String.length]; [lia|].
  destruct skip as [|k].
  - destruct (matchDup (String c r)) as [n|].
    + specialize (IH (n - 1)%nat). lia.
    + cbn [String.length]. specialize (IH O). lia.
  - specialize (IH k). lia.
Qed.

Lemma matchDup_needs_paren (c0 c1 : ascii) (r : string) :
  Ascii.eqb c1 "("%char = false -> matchDup (String c0 (String c1 r)) = None.
Proof.
  intros H. unfold matchDup. rewrite H, andb_false_r. reflexivity.
Qed.

(** Up to the first parenthesis nothing is removed. *)
Lemma cleanFrom_noParen_app (base t : string) :
  noParen base = true ->
  match t with
  | String c _ => Ascii.eqb c "("%char = false
  | EmptyString => True
  end ->
  cleanFrom O (base ++ t) = base ++ cleanFrom O t.
Proof.
  induction base as [|c r IH]; intros Hb Ht; [reflexivity|].
  cbn in Hb. apply andb_prop in Hb as [_ Hr].
  cbn [append cleanFrom].
  assert (Hm : matchDup (String c (r ++ t)) = None).
  { destruct r as [|c1 r1].
    - cbn [append]. destruct t as [|c1 t1]; [reflexivity|].
      now apply matchDup_needs_paren.
    - cbn [append]. apply matchDup_needs_paren.
      cbn in Hr. apply andb_prop in Hr as [Hc _].
      now apply negb_true_iff in Hc. }
  rewrite Hm. f_equal. now apply IH.
Qed.

Lemma append_empty (s : string) : s ++ "" = s.
Proof. induction s; cbn; congruence. Qed.

Lemma append_length (s t : string) :
  String.length (s ++ t) = (String.length s + String.length t)%nat.
Proof. induction s; cbn; congruence. Qed.

Lemma append_assoc (s t u : string) : (s ++ t) ++ u = s ++ (t ++ u).
Proof. induction s; cbn; congruence. Qed.

Lemma cleanFrom_noParen (s : string) :
  noParen s = true -> cleanFrom O s = s.
Proof.
  intros H. pose proof (cleanFrom_noParen_app s EmptyString H I) as E.
  cbn [cleanFrom] in E. now rewrite !append_empty in E.
Qed.

Lemma skipDigits_run (ds rest : string) (c : ascii) :
  allDigits ds = true -> isDigit c = false ->
  skipDigits (ds ++ String c rest) = (String.length ds, String c rest).
Proof.
  intros Hd Hc. induction ds as [|d r IH]; cbn.
  - now rewrite Hc.
  - cbn in Hd. apply andb_prop in Hd as [Hd Hr].
    rewrite Hd, (IH Hr). reflexivity.
Qed.

Lemma cleanFrom_skip (s1 s2 : string) :
  cleanFrom (String.length s1) (s1 ++ s2) = cleanFrom O s2.
Proof. induction s1 as [|c r IH]; cbn; auto. Qed.

(** X10: [cleanFileName] never lengthens a name and leaves a name without
    an opening parenthesis as it is; it removes one upload-duplicate suffix:
    a white space and a parenthesized number, standing at the end of the
    name or right before ".pdf", after a base name without parenthesis. *)
Theorem cleanFileName_strips_duplicate_suffix (base digits ext : string)
  (ws : ascii) :
  noParen base = true -> isSpace ws = true ->
  allDigits digits = true -> digits <> "" ->
  noParen ext = true -> lookahead ext = true ->
  cleanFileName (base ++ String ws ("(" ++ digits ++ ")" ++ ext))
    = base ++ ext
  /\ cleanFileName base = base
  /\ forall name,
       (String.length (cleanFileName name) <= String.length name)%nat.
Proof.
  intros Hb Hw Hd Hne He Hl. split; [|split].
  - unfold cleanFileName.
    rewrite cleanFrom_noParen_app; [|exact Hb|].
    2:{ destruct (Ascii.eqb_spec ws "("%char) as [->|]; [discriminate Hw|].
        reflexivity. }
    f_equal.
    assert (Hm : matchDup (String ws ("(" ++ digits ++ ")" ++ ext))
                 = Some (String.length digits + 3)%nat).
    { cbn [append]. unfold matchDup. rewrite Hw. cbn [Ascii.eqb andb].
      change (Ascii.eqb "(" "(") with true. cbn [andb].
      change (String ")"%char ext) with (String ")"%char ext).
      rewrite (skipDigits_run digits ext ")"%char Hd eq_refl).
      destruct digits as [|d r]; [contradiction|]. cbn [String.length].
      change (Ascii.eqb ")" ")") with true. now rewrite Hl. }
    cbn [cleanFrom]. rewrite Hm.
    replace (String.length digits + 3 - 1)%nat
      with (String.length ("(" ++ digits ++ ")")).
    2:{ cbn. rewrite append_length. cbn. lia. }
    replace ("(" ++ digits ++ ")" ++ ext)
      with (("(" ++ digits ++ ")") ++ ext).
    2:{ cbn. now rewrite append_assoc. }
    rewrite cleanFrom_skip. now apply cleanFrom_noParen.
  - now apply cleanFrom_noParen.
  - intros name. apply cleanFrom_length.
Qed.

End FileNames.

(** ** Dropping files and folders *)

Section Dropping.
Import App JsString.
Local Open Scope js_scope.
Variable env : Env.



End Dropping.

(** ** The drop overlay *)

Section DropOverlay.
Import App.

Lemma drag_invariant (d : DragState) (e : DragEvent) :
  (isDragging d = true -> (0 < dragCounter d)%Z) ->
  (0 <= dragCounter d)%Z -> (0 <= dragCounter (drag d e))%Z ->
  isDragging (drag d e) = true -> (0 < dragCounter (drag d e))%Z.
Proof.
  intros Hinv Hd He. destruct e as [hasItems| | |]; cbn in *.
  - intros _. lia.
  - destruct (Z.eqb_spec (dragCounter d - 1) 0); [discriminate|].
    intros _. lia.
  - exact Hinv.
  - discriminate.
Qed.

Lemma drag_events_invariant (events : list DragEvent) (d : DragState) :
  (isDragging d = true -> (0 < dragCounter d)%Z) ->
  (0 <= dragCounter d)%Z -> inside d events ->
  isDragging (fold_left drag events d) = true ->
  (0 < dragCounter (fold_left drag events d))%Z.
Proof.
  revert d. induction events as [|e r IH]; intros d Hinv Hd Hin;
    [exact Hinv|].
  cbn in Hin |- *. destruct Hin as [He Hr].
  apply IH; try assumption. now apply drag_invariant.
Qed.

(** X12: as long as the pointer never leaves more elements than it
    entered, the drop overlay is shown only while the pointer is inside
    the window: whenever the counter of entered elements is back at zero
    the overlay is hidden; and a drop hides it at once. *)
Theorem drop_overlay_hidden_outside (events : list DragEvent) :
  inside initialDrag events ->
  let d := fold_left drag events initialDrag in
  (isDragging d = true -> (0 < dragCounter d)%Z)
  /\ (dragCounter d = 0%Z -> isDragging d = false)
  /\ isDragging (drag d Drop) = false.
Proof.
  intros Hin d.
  assert (H : isDragging d = true -> (0 < dragCounter d)%Z).
  { apply drag_events_invariant; [discriminate|cbn; lia|exact Hin]. }
  split; [exact H|]. split; [|reflexivity].
  intros H0. destruct (isDragging d); [|reflexivity].
  specialize (H eq_refl). lia.
Qed.

End DropOverlay.

(** ** More on citation resolution *)

Section ResolverFacts.
Import App JsString.

(** X13: resolution reads the citation's standard name through its
    lower-case form and its length only: two citations whose standard names
    have the same lower-case form and the same length resolve to the same
    document, or both to none, in every library. *)
Theorem findDocument_ignores_citation_case (c1 c2 : Citation.t)
  (docs : list RailDocument.t) :
  toLowerCase (Citation.standard c1) = toLowerCase (Citation.standard c2) ->
  len (Citation.standard c1) = len (Citation.standard c2) ->
  findDocument c1 docs = findDocument c2 docs.
Proof.
  intros H Hl.
  unfold findDocument, isExact, isCandidate, byLengthGap, lengthGap,
    targetNoExt, target.
  now rewrite H, Hl.
Qed.

(** X14: a document whose name has no white space at either end is found
    by its own name: the citation naming it resolves in the first pass, to
    a document of the library whose name is the same up to case and a
    trailing ".pdf", which is the document itself when no other document
    shares that name. *)
Theorem findDocument_by_own_name (d : RailDocument.t)
  (docs : list RailDocument.t) (clause : string) (page : option Z) :
  In d docs ->
  trim (toLowerCase (RailDocument.name d)) = toLowerCase (RailDocument.name d) ->
  exists d',
    findDocument (Citation.mk (RailDocument.name d) clause page) docs = Some d'
    /\ In d' docs
    /\ stripPdf (toLowerCase (RailDocument.name d'))
       = stripPdf (toLowerCase (RailDocument.name d))
    /\ ((forall x, In x docs ->
           stripPdf (toLowerCase (RailDocument.name x))
           = stripPdf (toLowerCase (RailDocument.name d)) -> x = d) ->
        d' = d).
Proof.
  intros Hin Htrim.
  set (c := Citation.mk (RailDocument.name d) clause page).
  assert (Hd : isExact c d = true).
  { unfold isExact, target, c. cbn [Citation.standard].
    rewrite Htrim, String.eqb_refl. reflexivity. }
  destruct (find (isExact c) docs) as [d'|] eqn:Hf.
  - exists d'. pose proof (find_some _ _ Hf) as [Hin' He].
    assert (Hs : stripPdf (toLowerCase (RailDocument.name d'))
                 = stripPdf (toLowerCase (RailDocument.name d))).
    { unfold isExact, targetNoExt, target, c in He.
      cbn [Citation.standard] in He. rewrite Htrim in He. apply orb_prop in He as [He|He];
        apply String.eqb_eq in He; congruence. }
    unfold findDocument. rewrite Hf. repeat split; auto.
  - rewrite (find_none _ _ Hf d Hin) in Hd. discriminate.
Qed.

End ResolverFacts.

(** ** Text extraction and the remote query *)

Section Services.

Lemma fold_left_agree {A B} (f g : A -> B -> A) (l : list B) (a : A) :
  (forall x b, In b l -> f x b = g x b) ->
  fold_left f l a = fold_left g l a.
Proof.
  revert a. induction l as [|b r IH]; intros a H; [reflexivity|].
  cbn. rewrite (H a b) by now left.
  apply IH. intros x b' Hb. apply H. now right.
Qed.

(** X15: [extractTextFromPdf] fails only when the document cannot be
    decoded, never because of its pages, and it reads no page beyond the
    fiftieth: two decodings with the same page count that agree on pages 1
    to 50 give the same text. *)
Theorem extractTextFromPdf_reads_first_pages (env1 env2 : Env)
  (file : File.t) (pdf1 pdf2 : PdfDocument.t) :
  getDocument env1 (File.bytes file) = Some pdf1 ->
  getDocument env2 (File.bytes file) = Some pdf2 ->
  PdfDocument.numPages pdf1 = PdfDocument.numPages pdf2 ->
  (forall i, (1 <= i <= 50)%Z ->
     PdfDocument.getPageText pdf1 i = PdfDocument.getPageText pdf2 i) ->
  (exists text, PdfService.extractTextFromPdf env1 file = Ok text)
  /\ PdfService.extractTextFromPdf env1 file
     = PdfService.extractTextFromPdf env2 file.
Proof.
  intros H1 H2 Hn Hp. split.
  - unfold PdfService.extractTextFromPdf. rewrite H1.
    destruct (PdfDocument.numPages pdf1 =? 0)%Z; [eauto|].
    destruct (PdfDocument.numPages pdf1 >? PdfService.MAX_PAGES_CONTEXT)%Z;
      eauto.
  - unfold PdfService.extractTextFromPdf. rewrite H1, H2, <- Hn.
    destruct (PdfDocument.numPages pdf1 =? 0)%Z; [reflexivity|].
    assert (Hfold :
      fold_left (fun acc i => acc ++ PdfService.pageChunk pdf1 (Z.of_nat i))
        (seq 1 (Z.to_nat (Z.min (PdfDocument.numPages pdf1)
                            PdfService.MAX_PAGES_CONTEXT))) ""
      = fold_left (fun acc i => acc ++ PdfService.pageChunk pdf2 (Z.of_nat i))
          (seq 1 (Z.to_nat (Z.min (PdfDocument.numPages pdf1)
                              PdfService.MAX_PAGES_CONTEXT))) "").
    { apply fold_left_agree. intros acc i Hi. apply in_seq in Hi.
      unfold PdfService.MAX_PAGES_CONTEXT in Hi.
      unfold PdfService.pageChunk. rewrite Hp by lia. reflexivity. }
    rewrite Hfold. reflexivity.
Qed.

(** X16: [queryStandards] answers only when an API key is configured (not
    absent, not empty, not the text "undefined"), the model returned a
    non-empty text and that text, trimmed, parses; without a usable key it
    throws the missing-key error whatever the model would have said. *)
Theorem queryStandards_outcomes (env : Env) (question : string)
  (documents : list RailDocument.t) (n : nat) :
  (GeminiService.keyUsable (apiKey env) = false ->
   GeminiService.queryStandards env question documents n
   = Throw GeminiService.missingKey)
  /\ (apiKey env = None \/ apiKey env = Some "" \/
      apiKey env = Some "undefined" ->
      GeminiService.keyUsable (apiKey env) = false)
  /\ (forall result,
        GeminiService.queryStandards env question documents n = Ok result ->
        GeminiService.keyUsable (apiKey env) = true
        /\ exists text,
             generateContent env
               (GeminiService.contents question documents) n
             = Ok (Some text)
             /\ text <> ""
             /\ jsonParse env (JsString.trim text) = Ok result).
Proof.
  unfold GeminiService.queryStandards. split; [|split].
  - intros ->. reflexivity.
  - intros [->|[->| ->]]; reflexivity.
  - intros result H.
    destruct (GeminiService.keyUsable (apiKey env)); [|discriminate].
    cbn in H. split; [reflexivity|].
    destruct (generateContent env _ n) as [[text|]|e]; try discriminate.
    destruct (String.eqb_spec text ""); [discriminate|].
    exists text. auto.
Qed.

End Services.

(** ** Zoom, drag and resize *)

Section Gestures.
Import ClauseModal.
Local Open Scope Q_scope.

Lemma zoom_bounds (v : View) (e : ZoomEvent) :
  (1 # 2) <= scale v <= 4 -> (1 # 2) <= scale (zoom v e) <= 4.
Proof.
  intros [Hl Hu]. destruct e; cbn.
  - split; [apply Q.le_max_l|]. apply Q.max_lub; lra.
  - split; [|apply Q.le_min_l]. apply Q.min_glb; lra.
  - split; lra.
Qed.

Lemma step_scale (r : Render) (e : RenderEvent) :
  scale (view (step r e)) = scale (view r).
Proof.
  destruct e; cbn [step].
  - reflexivity.
  - reflexivity.
  - reflexivity.
  - reflexivity.
  - unfold renderPage. now destruct (pdfDoc r).
  - unfold pageResolved. now destruct (nth_error (pendingPages r) i) as [[p sc]|].
  - unfold pageRejected. now destruct (nth_error (pendingPages r) i) as [[p sc]|].
  - unfold paint. now destruct (isRunning (tasks r) t).
  - unfold finish. now destruct (isRunning (tasks r) t).
  - unfold fail. now destruct (isRunning (tasks r) t).
  - unfold settle. destruct (existsb (Nat.eqb t) (awaiting r)); [|reflexivity].
    destruct (nth_error (tasks r) t) as [[p sc []]|]; reflexivity.
Qed.

Lemma clickZoom_scale (e : ZoomEvent) (r : Render) :
  scale (view (clickZoom e r)) == scale (zoom (view r) e).
Proof.
  unfold clickZoom.
  destruct (Qeq_bool (scale (zoom (view r) e)) (scale (view r))) eqn:E.
  - apply Qeq_bool_iff in E. now symmetry.
  - reflexivity.
Qed.

(** X17: in every run of the viewer, zoom clicks interleaved with the
    turns of the render machine, the factor stays between 0.5 and 4; a
    click on zoom-out at 0.5 and a click on zoom-in at 4 change nothing at
    all (no reload); and a click sets the factor to the previous one less a
    quarter but no less than 0.5, plus a quarter but no more than 4, or to
    1 for the reset. *)
Theorem zoom_stays_in_bounds (initialPage : Z) (events : list ViewerEvent) :
  let r := viewer initialPage events in
  (1 # 2) <= scale (view r) <= 4
  /\ (scale (view r) == 1 # 2 -> clickZoom ZoomOut r = r)
  /\ (scale (view r) == 4 -> clickZoom ZoomIn r = r)
  /\ scale (view (clickZoom ZoomOut r))
     == Qmax (1 # 2) (scale (view r) - (1 # 4))
  /\ scale (view (clickZoom ZoomIn r)) == Qmin 4 (scale (view r) + (1 # 4))
  /\ scale (view (clickZoom ResetZoom r)) == 1.
Proof.
  intros r.
  assert (Hb : (1 # 2) <= scale (view r) <= 4).
  { unfold r, viewer.
    assert (H0 : (1 # 2) <= scale (view (initialRender initialPage)) <= 4)
      by (cbn; split; discriminate).
    revert H0. generalize (initialRender initialPage).
    induction events as [|e l IH]; intros r0 H0; [exact H0|].
    cbn [fold_left]. apply IH. destruct e as [z|t]; cbn [stepViewer].
    - destruct (zoom_bounds (view r0) z H0) as [H1 H2].
      pose proof (clickZoom_scale z r0) as Hz.
      split; [now rewrite Hz|now rewrite Hz].
    - now rewrite step_scale. }
  split; [exact Hb|].
  split; [|split].
  - intros Hs. unfold clickZoom.
    replace (Qeq_bool (scale (zoom (view r) ZoomOut)) (scale (view r)))
      with true; [reflexivity|].
    symmetry. apply Qeq_bool_iff. cbn. rewrite Hs. apply Q.max_l. lra.
  - intros Hs. unfold clickZoom.
    replace (Qeq_bool (scale (zoom (view r) ZoomIn)) (scale (view r)))
      with true; [reflexivity|].
    symmetry. apply Qeq_bool_iff. cbn. rewrite Hs. apply Q.min_l. lra.
  - split; [|split]; apply clickZoom_scale.
Qed.

(** X18: a drag moves the window by the pointer's displacement since the
    mouse went down on the handle, wherever the pointer wandered in
    between, and never changes its size; once the button is released a
    pointer move changes nothing. *)
Theorem drag_follows_pointer (g : Geometry) (x0 y0 x1 y1 x2 y2 : Q) :
  isResizing g = false ->
  let pressed := handleMouseDown true x0 y0 g in
  let moved := handleMouseMove x2 y2 (handleMouseMove x1 y1 pressed) in
  fst (pos moved) == fst (pos g) + (x2 - x0)
  /\ snd (pos moved) == snd (pos g) + (y2 - y0)
  /\ size moved = size g
  /\ handleMouseMove x1 y1 (handleMouseUp moved) = handleMouseUp moved.
Proof.
  intros Hr pressed moved. subst pressed moved.
  unfold handleMouseMove, handleMouseDown, handleMouseUp. cbn.
  rewrite Hr. cbn. repeat split; try reflexivity; ring.
Qed.

(** X19: a resize sets each dimension to the size at the start of the
    resize plus the pointer's displacement since then, floored at 400 by
    300, wherever the pointer wandered in between, and never moves the
    window. *)
Theorem resize_follows_pointer (g : Geometry) (x0 y0 x1 y1 x2 y2 : Q) :
  isDragging g = false ->
  let started := handleResizeStart x0 y0 g in
  let moved := handleMouseMove x2 y2 (handleMouseMove x1 y1 started) in
  width moved == Qmax 400 (width g + (x2 - x0))
  /\ height moved == Qmax 300 (height g + (y2 - y0))
  /\ pos moved = pos g
  /\ (400 <= width g + (x2 - x0) -> width moved == width g + (x2 - x0))
  /\ (300 <= height g + (y2 - y0) -> height moved == height g + (y2 - y0)).
Proof.
  intros Hd started moved. subst started moved.
  unfold handleMouseMove, handleResizeStart, width, height. cbn.
  rewrite Hd. cbn.
  split; [reflexivity|]. split; [reflexivity|]. split; [reflexivity|].
  split; intros H; now apply Q.max_r.
Qed.

(** X20: in a viewport of non-negative size the overlay opens centred and
    inside the viewport, at most 1000 wide and 850 high. *)
Theorem overlay_opens_centred (innerWidth innerHeight : Q) (g : Geometry) :
  0 <= innerWidth -> 0 <= innerHeight ->
  let o := openEffect innerWidth innerHeight g in
  (0 <= fst (pos o) /\ fst (pos o) + width o <= innerWidth)
  /\ (0 <= snd (pos o) /\ snd (pos o) + height o <= innerHeight)
  /\ fst (pos o) + width o / 2 == innerWidth / 2
  /\ snd (pos o) + height o / 2 == innerHeight / 2
  /\ width o <= 1000 /\ height o <= 850.
Proof.
  intros Hw Hh o. subst o. unfold openEffect, width, height. cbn.
  pose proof (Q.le_min_l (innerWidth * (9 # 10)) 1000) as W1.
  pose proof (Q.le_min_r (innerWidth * (9 # 10)) 1000) as W2.
  pose proof (Q.le_min_l (innerHeight * (9 # 10)) 850) as H1.
  pose proof (Q.le_min_r (innerHeight * (9 # 10)) 850) as H2.
  set (w := Qmin (innerWidth * (9 # 10)) 1000) in *.
  set (h := Qmin (innerHeight * (9 # 10)) 850) in *.
  unfold Qdiv. change (/ 2) with (1 # 2).
  repeat split; lra.
Qed.

End Gestures.

(** ** More on rendering *)

Section RenderFacts.
Import ClauseModal.

Lemma cancelCurrent_not_running (r : Render) (t : nat) :
  renderTaskRef r = Some t -> isRunning (cancelCurrent r) t = false.
Proof.
  intros Hr. unfold cancelCurrent. rewrite Hr.
  destruct (isRunning (tasks r) t) eqn:E; [|exact E].
  apply isRunning_true in E. apply statusOf_Some_lt in E.
  unfold isRunning. now rewrite statusOf_setStatus_same.
Qed.

Lemma cancelCurrent_others (r : Render) (t t' : nat) :
  renderTaskRef r = Some t -> t' <> t ->
  statusOf (cancelCurrent r) t' = statusOf (tasks r) t'.
Proof.
  intros Hr Hne. unfold cancelCurrent. rewrite Hr.
  destruct (isRunning (tasks r) t); [|reflexivity].
  apply statusOf_setStatus_other. congruence.
Qed.

(** X21: a new [renderPage] on a loaded document, like the cleanup of the
    loading effect, first cancels the task held by the ref: afterwards that
    task is not running, a task that was already over keeps its status,
    every other task keeps its status, and the canvas is not touched. *)
Theorem render_cancels_current_task (r : Render) (num numPages : Z)
  (currentScale : Q) (t : nat) :
  pdfDoc r = Some numPages -> renderTaskRef r = Some t ->
  let r' := renderPage num currentScale r in
  tasks r' = tasks (cleanup r)
  /\ isRunning (tasks r') t = false
  /\ (isRunning (tasks r) t = false -> tasks r' = tasks r)
  /\ (forall t', t' <> t ->
        statusOf (tasks r') t' = statusOf (tasks r) t')
  /\ canvas r' = canvas r
  /\ pendingPages r'
     = (pendingPages r ++ [(clampPage num numPages, currentScale)])%list.
Proof.
  intros Hd Hr r'. subst r'. unfold renderPage, cleanup. rewrite Hd.
  cbn [tasks canvas pendingPages].
  split; [reflexivity|].
  split; [exact (cancelCurrent_not_running r t Hr)|].
  split.
  - intros Hn. unfold cancelCurrent. now rewrite Hr, Hn.
  - split; [intros t' Hne; exact (cancelCurrent_others r t t' Hr Hne)|].
    split; reflexivity.
Qed.

Lemma setStatus_pages (numPages : Z) (t : nat) (st : Status)
  (ts : list Task) :
  Forall (fun k => (1 <= taskPage k <= numPages)%Z) ts ->
  Forall (fun k => (1 <= taskPage k <= numPages)%Z) (setStatus t st ts).
Proof.
  revert t. induction ts as [|k r IH]; intros t H; [destruct t; exact H|].
  inversion H; subst. destruct t; cbn; constructor; auto.
Qed.

Lemma cancelCurrent_pages (numPages : Z) (r : Render) :
  Forall (fun k => (1 <= taskPage k <= numPages)%Z) (tasks r) ->
  Forall (fun k => (1 <= taskPage k <= numPages)%Z) (cancelCurrent r).
Proof.
  intros H. unfold cancelCurrent. destruct (renderTaskRef r); [|exact H].
  destruct (isRunning (tasks r) n); [now apply setStatus_pages|exact H].
Qed.

Lemma removeNth_Forall {A} (P : A -> Prop) (i : nat) (l : list A) :
  Forall P l -> Forall P (removeNth i l).
Proof.
  revert i. induction l as [|x r IH]; intros i H; [destruct i; exact H|].
  inversion H; subst. destruct i; cbn; [assumption|constructor; auto].
Qed.

Lemma step_pagesWithin (numPages : Z) (r : Render) (e : RenderEvent) :
  (1 <= numPages)%Z ->
  match e with LoadSucceeded _ n => n = numPages | _ => True end ->
  (forall n, pdfDoc r = Some n -> n = numPages) ->
  pagesWithin numPages r ->
  (forall n, pdfDoc (step r e) = Some n -> n = numPages)
  /\ pagesWithin numPages (step r e).
Proof.
  intros Hn He Hdoc [Hp Ht].
  assert (Hclamp : forall num, (1 <= clampPage num numPages <= numPages)%Z)
    by (intros num; unfold clampPage; lia).
  destruct e as [|p n|m| |num sc|i|i|t|t|t|t]; cbn.
  - split; [exact Hdoc|now split].
  - subst n. unfold loadSucceeded, renderPage. cbn.
    split; [intros n [= <-]; reflexivity|]. split; cbn.
    + apply Forall_app. split; [exact Hp|]. repeat constructor; apply Hclamp.
    + now apply cancelCurrent_pages.
  - split; [exact Hdoc|now split].
  - split; [discriminate|]. split; cbn; [exact Hp|].
    now apply cancelCurrent_pages.
  - unfold renderPage. destruct (pdfDoc r) as [n|] eqn:Ed.
    + pose proof (Hdoc n eq_refl) as ->. cbn.
      split; [intros n' [= <-]; reflexivity|]. split; cbn.
      * apply Forall_app. split; [exact Hp|].
        repeat constructor; apply Hclamp.
      * now apply cancelCurrent_pages.
    + split; [|now split]. intros n' Hn'. rewrite Ed in Hn'.
      discriminate.
  - unfold pageResolved.
    destruct (nth_error (pendingPages r) i) as [[pageNum sc]|] eqn:En;
      [|split; [exact Hdoc|now split]].
    cbn. split; [exact Hdoc|]. split; cbn.
    + now apply removeNth_Forall.
    + apply Forall_app. split; [exact Ht|]. repeat constructor; cbn;
        apply nth_error_In in En; rewrite Forall_forall in Hp;
        apply (Hp _ En).
  - unfold pageRejected.
    destruct (nth_error (pendingPages r) i) as [[pageNum sc]|];
      [|split; [exact Hdoc|now split]].
    cbn. split; [exact Hdoc|]. split; cbn; [now apply removeNth_Forall|auto].
  - unfold paint. destruct (isRunning (tasks r) t);
      (split; [exact Hdoc|now split]).
  - unfold finish. destruct (isRunning (tasks r) t);
      [|split; [exact Hdoc|now split]].
    cbn. split; [exact Hdoc|]. split; cbn; [exact Hp|].
    now apply setStatus_pages.
  - unfold fail. destruct (isRunning (tasks r) t);
      [|split; [exact Hdoc|now split]].
    cbn. split; [exact Hdoc|]. split; cbn; [exact Hp|].
    now apply setStatus_pages.
  - unfold settle. destruct (existsb (Nat.eqb t) (awaiting r));
      [|split; [exact Hdoc|now split]].
    destruct (nth_error (tasks r) t) as [[pageNum sc []]|];
      (split; [exact Hdoc|now split]).
Qed.

(** X22: in every run of the viewer on a document of [numPages] pages (at
    least one), whatever page numbers are requested, every page asked of
    pdf.js, whether its [getPage] is still pending or its render task
    exists, lies within 1..numPages. *)
Theorem rendered_pages_within_document (initialPage numPages : Z)
  (events : list RenderEvent) :
  (1 <= numPages)%Z -> loadsOnly numPages events = true ->
  pagesWithin numPages (run initialPage events).
Proof.
  intros Hn Hall. unfold run.
  assert (H : forall r,
             (forall n, pdfDoc r = Some n -> n = numPages) ->
             pagesWithin numPages r ->
             pagesWithin numPages (fold_left step events r)).
  { induction events as [|e es IH]; intros r Hd Hp; [exact Hp|].
    cbn in Hall. apply andb_prop in Hall as [He Hes]. cbn [fold_left].
    destruct (step_pagesWithin numPages r e Hn) as [Hd' Hp'];
      try assumption.
    { destruct e; try exact I. now apply Z.eqb_eq in He. }
    now apply IH. }
  apply H; [discriminate|]. split; constructor.
Qed.

(** X23: a zoom click that changes the factor makes the loading effect run
    again, and when the document is loaded again [loadPdf] puts the viewer
    back on the page it was opened at (clamped), not on the page reached by
    navigation, and asks for a render of that page at the new factor; a
    click that leaves the factor unchanged (zooming out at 0.5, in at 4)
    changes nothing. *)
Theorem zoom_returns_to_opening_page (e : ZoomEvent) (r : Render)
  (initialPage numPages : Z) :
  let clicked := clickZoom e r in
  let reloaded := loadSucceeded initialPage numPages clicked in
  (Qeq_bool (scale (zoom (view r) e)) (scale (view r)) = true ->
   clicked = r)
  /\ (Qeq_bool (scale (zoom (view r) e)) (scale (view r)) = false ->
      pdfDoc clicked = None
      /\ loading (view clicked) = true
      /\ (forall t, renderTaskRef r = Some t ->
            isRunning (tasks clicked) t = false)
      /\ currentPage (view reloaded) = clampPage initialPage numPages
      /\ totalPages (view reloaded) = numPages
      /\ pendingPages reloaded
         = (pendingPages r
            ++ [(clampPage initialPage numPages,
                 scale (zoom (view r) e))])%list).
Proof.
  intros clicked reloaded. subst clicked reloaded. unfold clickZoom.
  split; intros Hq; rewrite Hq; [reflexivity|].
  unfold loadSucceeded, renderPage, beginLoad, cleanup, withView. cbn.
  split; [reflexivity|]. split; [reflexivity|].
  split;
    [|replace (clampPage (clampPage initialPage numPages) numPages)
        with (clampPage initialPage numPages) by (unfold clampPage; lia);
      destruct e; repeat split; reflexivity].
  intros t Ht.
  apply (cancelCurrent_not_running
           (mkRender (zoom (view r) e) (pdfDoc r) (renderTaskRef r)
              (tasks r) (pendingPages r) (awaiting r) (canvas r)) t Ht).
Qed.

End RenderFacts.

(** ** Reading the history back *)

Section HistoryOrder.
Import Storage.

Lemma filter_insert_timestamp (t : Z) (x : ChatMessage.t)
  (l : list ChatMessage.t) :
  filter (fun m => (ChatMessage.timestamp m =? t)%Z)
         (JsArray.insert byTimestamp x l)
  = filter (fun m => (ChatMessage.timestamp m =? t)%Z) (x :: l).
Proof.
  induction l as [|y r IH]; [reflexivity|].
  cbn [JsArray.insert]. unfold byTimestamp at 1.
  destruct (ChatMessage.timestamp x - ChatMessage.timestamp y <=? 0)%Z eqn:E;
    [reflexivity|].
  apply Z.leb_gt in E.
  cbn [filter] in IH |- *. rewrite IH.
  destruct (Z.eqb_spec (ChatMessage.timestamp x) t) as [Hx|Hx];
    destruct (Z.eqb_spec (ChatMessage.timestamp y) t) as [Hy|Hy];
    try reflexivity.
  lia.
Qed.

Lemma filter_sort_timestamp (t : Z) (l : list ChatMessage.t) :
  filter (fun m => (ChatMessage.timestamp m =? t)%Z)
         (JsArray.sort byTimestamp l)
  = filter (fun m => (ChatMessage.timestamp m =? t)%Z) l.
Proof.
  induction l as [|x r IH]; [reflexivity|].
  cbn [JsArray.sort]. rewrite filter_insert_timestamp.
  cbn [filter]. now rewrite IH.
Qed.

(** X24: when the store answers, [getChatHistory] returns every stored
    message exactly once, in ascending timestamp order, the messages of one
    timestamp in the order of the store, that is by ascending identifier;
    it changes neither store. *)
Theorem getChatHistory_is_stable (w : World) :
  available w = true ->
  exists history,
    fst (getChatHistory w) = Ok history
    /\ Permutation history (chatStore w)
    /\ StronglySorted (JsArray.keyLe ChatMessage.timestamp) history
    /\ (forall t,
          filter (fun m => (ChatMessage.timestamp m =? t)%Z) history
          = filter (fun m => (ChatMessage.timestamp m =? t)%Z) (chatStore w))
    /\ chatStore (snd (getChatHistory w)) = chatStore w
    /\ docStore (snd (getChatHistory w)) = docStore w.
Proof.
  intros Hav. exists (JsArray.sort byTimestamp (chatStore w)).
  unfold getChatHistory. rewrite (request_run _ w Hav). cbn.
  split; [reflexivity|].
  split; [apply (sort_perm ChatMessage.timestamp)|].
  split; [apply (sort_sorted ChatMessage.timestamp)|].
  split; [intros t; apply filter_sort_timestamp|].
  split; reflexivity.
Qed.

End HistoryOrder.

(** ** Memory and store after an upload or an ask *)

Section InStep.
Import App.
Variable env : Env.

Lemma fold_put_In (docs store : list RailDocument.t) (d : RailDocument.t) :
  Storage.keySorted RailDocument.id store ->
  NoDup (map RailDocument.id store ++ map RailDocument.id docs) ->
  In d (fold_left (fun st x => Storage.put RailDocument.id x st) docs store)
  <-> In d store \/ In d docs.
Proof.
  revert store. induction docs as [|x r IH]; intros store Hs Hnd; cbn.
  - tauto.
  - assert (Hx : ~ In (RailDocument.id x) (map RailDocument.id store)).
    { intros Hi. apply NoDup_remove_2 in Hnd. apply Hnd.
      apply in_or_app. now left. }
    rewrite IH.
    + rewrite (put_In_iff RailDocument.id x d store Hs). split.
      * intros [[->|[Hd _]]|Hd]; auto.
      * intros [Hd|[<-|Hd]]; auto.
        left. right. split; [exact Hd|]. intros E. apply Hx. rewrite <- E.
        now apply in_map.
    + now apply put_keySorted.
    + eapply Permutation_NoDup; [|exact Hnd].
      rewrite (Permutation_map RailDocument.id
                 (put_fresh_perm RailDocument.id x store Hx)).
      cbn. symmetry. apply Permutation_middle.
Qed.

Lemma processFiles_store (files : list File.t) (acc : list RailDocument.t)
  (s : Sys) :
  Forall (ingestible env) files -> faults (world s) = [] ->
  exists docs s',
    processFiles env files acc s = (Ok (acc ++ docs)%list, s')
    /\ app s' = app s
    /\ map RailDocument.id docs
       = map (randomUUID env) (seq (uuidCount (world s)) (List.length files))
    /\ docStore (world s')
       = fold_left (fun st x => Storage.put RailDocument.id x st) docs
           (docStore (world s)).
Proof.
  revert acc s. induction files as [|f r IH]; intros acc s Hall Hf.
  - exists [], s. cbn. rewrite app_nil_r. auto.
  - inversion Hall as [|? ? (Hn & Ho & Hd) Hr]; subst.
    destruct (extract_decodable env f Hd) as [text Hx].
    assert (Hav : Storage.available (world s) = true)
      by (unfold Storage.available; now rewrite Hf).
    cbn [processFiles]. unfold bind.
    rewrite (processFile_saved env f text s Hn Ho Hx Hav).
    set (s1 := mkSys _ _).
    destruct (IH (acc ++ [builtDocument env f text (world s)])%list s1 Hr)
      as (docs & s' & Hrun & Happ & Hid & Hst).
    { cbn. now rewrite Hf. }
    exists (builtDocument env f text (world s) :: docs), s'.
    rewrite Hrun, <- app_assoc. cbn [List.app].
    split; [reflexivity|]. split; [exact Happ|].
    cbn in Hid, Hst |- *. now rewrite Hid, Hst.
Qed.

(** X25: a successful upload keeps the library in memory in step with the
    document store: if the two list the same records before, every file of
    the batch is ingestible, no storage fault occurs and the identifiers
    drawn are new and distinct, they list the same records after. *)
Theorem handleFileUpload_keeps_mirror (files : list File.t) (s : Sys) :
  mirrors s ->
  Storage.keySorted RailDocument.id (docStore (world s)) ->
  Forall (ingestible env) files -> faults (world s) = [] ->
  NoDup (map RailDocument.id (docStore (world s))
         ++ map (randomUUID env)
              (seq (uuidCount (world s)) (List.length files))) ->
  mirrors (snd (handleFileUpload env files s)).
Proof.
  intros Hm Hs Hall Hf Hnd.
  unfold handleFileUpload. destruct files as [|f0 r0]; [exact Hm|].
  set (files := f0 :: r0) in *.
  unfold bind, tryFinally, tryCatch, setIsProcessingFile, setError,
    setDocuments, setApp, modify.
  cbn -[processFiles files].
  match goal with
  | |- context [processFiles env files [] ?x] =>
      destruct (processFiles_store files [] x Hall Hf)
        as (docs & s' & Hrun & Happ & Hid & Hst);
      rewrite Hrun
  end.
  cbn in Hrun, Happ, Hid, Hst |- *.
  unfold mirrors in *. cbn. intros d. rewrite Happ. cbn.
  rewrite Hst, in_app_iff, Hm.
  symmetry. apply fold_put_In; [exact Hs|]. now rewrite Hid.
Qed.

(** X26: the optimistic append of [handleAsk] is not undone: when the
    store refuses the user message, the handler throws before any remote
    query, the transcript in memory holds the user message, the store does
    not, and the typed question is still in the input. *)
Theorem handleAsk_unsaved_message_stays (s : Sys) :
  askGuard (app s) = false ->
  Storage.available (world s) = false ->
  let s' := snd (handleAsk env s) in
  (exists msg, fst (handleAsk env s) = Throw msg)
  /\ chatHistory (app s') = (chatHistory (app s) ++ [userMessage env s])%list
  /\ chatStore (world s') = chatStore (world s)
  /\ log (world s') = log (world s)
  /\ inputText (app s') = inputText (app s)
  /\ isAsking (app s') = false
  /\ error (app s') = error (app s).
Proof.
  intros Hg Hav s'. subst s'. unfold Storage.available in Hav.
  unfold handleAsk, bind, get. cbn. rewrite Hg.
  unfold newUUID, newDate, liftW, setChatHistory, setApp, modify,
    Storage.saveChatMessage, Storage.request, bind.
  cbn.
  destruct (hd None (faults (world s))) as [msg|]; [|discriminate].
  cbn. unfold askGuard in Hg.
  apply orb_false_elim in Hg as [Hg _]. apply orb_false_elim in Hg as [_ Hg].
  repeat split; eauto.
Qed.

End InStep.

(** ** Worked instances of the further properties *)

Section MoreInstances.
Import App.

Lemma library_keySorted :
  Storage.keySorted RailDocument.id (docStore (world Sample.library)).
Proof. repeat constructor. Defined.

Lemma library_chat_keySorted :
  Storage.keySorted ChatMessage.id (chatStore (world Sample.library)).
Proof. repeat constructor. Defined.

Lemma save_is_upsert_witness :
  In Sample.revised
     (docStore (snd (Storage.saveDocument Sample.revised
                       (world Sample.library))))
  /\ ~ In Sample.trk
       (docStore (snd (Storage.saveDocument Sample.revised
                         (world Sample.library)))).
Proof.
  destruct (save_is_upsert Sample.revised Sample.answered
              (world Sample.library) eq_refl library_keySorted
              library_chat_keySorted) as [(_ & _ & H & _) _].
  split.
  - apply H. now left.
  - intros Hin. apply H in Hin as [E|[_ Hne]]; [discriminate E|].
    now apply Hne.
Defined.

Lemma saveDocument_twice_witness :
  docStore (snd (Storage.saveDocument Sample.revised
                   (snd (Storage.saveDocument Sample.revised
                           (world Sample.library)))))
  = docStore (snd (Storage.saveDocument Sample.revised
                     (world Sample.library))).
Proof.
  exact (saveDocument_twice Sample.revised (world Sample.library)
           eq_refl eq_refl).
Defined.

Lemma deleteDocument_removes_only_witness :
  In Sample.trk2
     (docStore (snd (Storage.deleteDocument "id-1" (world Sample.library))))
  /\ ~ In Sample.trk
       (docStore (snd (Storage.deleteDocument "id-1" (world Sample.library)))).
Proof.
  destruct (deleteDocument_removes_only "id-1" Sample.revised
              (world Sample.library) eq_refl library_keySorted)
    as (_ & _ & H & _).
  split.
  - apply H. split; [right; now left|discriminate].
  - intros Hin. apply H in Hin as [_ Hne]. now apply Hne.
Defined.

Lemma removeDocument_keeps_mirror_witness :
  In Sample.trk2 (documents (app (snd (removeDocument "id-1" Sample.library))))
  <-> In Sample.trk2
        (docStore (world (snd (removeDocument "id-1" Sample.library)))).
Proof.
  refine (proj2 (removeDocument_keeps_mirror "id-1" Sample.library _)
            Sample.trk2).
  intros d. reflexivity.
Defined.

Lemma handleAsk_answered_witness :
  askGuard (app Sample.library) = false
  /\ List.length (chatHistory (app (snd (handleAsk Sample.answering
                                          Sample.library)))) = 3%nat
  /\ error (app (snd (handleAsk Sample.answering Sample.library))) = None.
Proof.
  destruct (handleAsk_answered Sample.answering Sample.library Sample.reply
              eq_refl eq_refl eq_refl) as (_ & H & _ & _ & _ & He & _).
  split; [reflexivity|]. split; [|exact He].
  rewrite H. reflexivity.
Defined.

Lemma good_ingestible :
  Forall (ingestible Sample.env) [Sample.good; Sample.later].
Proof.
  repeat constructor; discriminate.
Defined.

Lemma handleFileUpload_ingests_all_witness :
  exists docs,
    documents (app (snd (handleFileUpload Sample.env
                           [Sample.good; Sample.later] Sample.start)))
    = (documents (app Sample.start) ++ docs)%list
    /\ map RailDocument.name docs = ["a.pdf"; "c.pdf"].
Proof.
  destruct (handleFileUpload_ingests_all Sample.env
              [Sample.good; Sample.later] Sample.start)
    as (docs & _ & Hd & Hn & _);
    [discriminate|exact good_ingestible|reflexivity|].
  exists docs. split; [exact Hd|exact Hn].
Defined.

Lemma cleanFileName_strips_witness :
  cleanFileName ("RT CE S 104" ++ String " " ("(" ++ "12" ++ ")" ++ ".pdf"))
  = "RT CE S 104" ++ ".pdf".
Proof.
  refine (proj1 (cleanFileName_strips_duplicate_suffix "RT CE S 104" "12"
                   ".pdf" " "%char _ _ _ _ _ _));
    reflexivity || discriminate.
Defined.

Lemma drop_overlay_witness :
  isDragging (fold_left drag
                [DragEnter true; DragEnter true; DragOver; DragLeave;
                 DragLeave] initialDrag) = false.
Proof.
  refine (proj1 (proj2 (drop_overlay_hidden_outside
                          [DragEnter true; DragEnter true; DragOver;
                           DragLeave; DragLeave] _)) eq_refl).
  cbn. repeat split; discriminate.
Defined.

Lemma findDocument_ignores_case_witness :
  findDocument (Citation.mk "nr-l2-trk-001.PDF" "3.2.1" None)
    (documents (app Sample.library))
  = findDocument (Sample.cite None) (documents (app Sample.library)).
Proof.
  apply findDocument_ignores_citation_case; reflexivity.
Defined.

Lemma findDocument_by_own_name_witness :
  findDocument (Citation.mk (RailDocument.name Sample.trk2) "1" None)
    (documents (app Sample.library)) = Some Sample.trk2.
Proof.
  destruct (findDocument_by_own_name Sample.trk2
              (documents (app Sample.library)) "1" None)
    as (d' & Hf & _ & _ & Hu); [right; now left|reflexivity|].
  rewrite Hf. f_equal. apply Hu.
  intros x [<-|[<-|[]]]; [discriminate|reflexivity].
Defined.

Lemma extractTextFromPdf_witness :
  exists text, PdfService.extractTextFromPdf Sample.env Sample.good = Ok text.
Proof.
  exact (proj1 (extractTextFromPdf_reads_first_pages Sample.env Sample.env
                  Sample.good Sample.twoPages Sample.twoPages
                  eq_refl eq_refl eq_refl (fun _ _ => eq_refl))).
Defined.

Lemma zoom_stays_in_bounds_witness :
  ((1 # 2) <= ClauseModal.scale
     (ClauseModal.view
        (ClauseModal.viewer 1
           [ClauseModal.Click ClauseModal.ZoomOut;
            ClauseModal.Turn (ClauseModal.LoadSucceeded 1 5);
            ClauseModal.Click ClauseModal.ZoomOut;
            ClauseModal.Click ClauseModal.ZoomOut;
            ClauseModal.Turn (ClauseModal.PageResolved 0);
            ClauseModal.Click ClauseModal.ZoomIn])))%Q.
Proof.
  exact (proj1 (proj1 (zoom_stays_in_bounds 1 _))).
Defined.

Lemma drag_follows_pointer_witness :
  (fst (ClauseModal.pos
          (ClauseModal.handleMouseMove 300 250
             (ClauseModal.handleMouseMove 100 900
                (ClauseModal.handleMouseDown true 200 200
                   ClauseModal.initialGeometry))))
   == fst (ClauseModal.pos ClauseModal.initialGeometry) + (300 - 200))%Q.
Proof.
  exact (proj1 (drag_follows_pointer ClauseModal.initialGeometry
                  200 200 100 900 300 250 eq_refl)).
Defined.

Lemma resize_follows_pointer_witness :
  (ClauseModal.width
     (ClauseModal.handleMouseMove 120 150
        (ClauseModal.handleMouseMove 0 0
           (ClauseModal.handleResizeStart 900 800
              ClauseModal.initialGeometry)))
   == Qmax 400 (ClauseModal.width ClauseModal.initialGeometry
                + (120 - 900)))%Q.
Proof.
  exact (proj1 (resize_follows_pointer ClauseModal.initialGeometry
                  900 800 0 0 120 150 eq_refl)).
Defined.

Lemma overlay_opens_centred_witness :
  (0 <= fst (ClauseModal.pos
               (ClauseModal.openEffect 375 667 ClauseModal.initialGeometry)))%Q.
Proof.
  refine (proj1 (proj1 (overlay_opens_centred 375 667
                          ClauseModal.initialGeometry _ _)));
    discriminate.
Defined.

Lemma render_cancels_witness :
  ClauseModal.isRunning
    (ClauseModal.tasks (ClauseModal.renderPage 3 1 Sample.rendering)) 0
  = false.
Proof.
  exact (proj1 (proj2 (render_cancels_current_task Sample.rendering 3 5 1 0
                         eq_refl eq_refl))).
Defined.

Lemma rendered_pages_witness :
  ClauseModal.pagesWithin 5 (ClauseModal.run 1 Sample.superseded).
Proof.
  apply rendered_pages_within_document; [lia|reflexivity].
Defined.

Lemma getChatHistory_is_stable_witness :
  exists history,
    fst (Storage.getChatHistory (world Sample.library)) = Ok history
    /\ Permutation history (chatStore (world Sample.library)).
Proof.
  destruct (getChatHistory_is_stable (world Sample.library) eq_refl)
    as (h & H1 & H2 & _).
  exists h. split; assumption.
Defined.

Lemma handleFileUpload_keeps_mirror_witness :
  In Sample.trk
     (documents (app (snd (handleFileUpload Sample.env
                             [Sample.good; Sample.later] Sample.start))))
  <-> In Sample.trk
        (docStore (world (snd (handleFileUpload Sample.env
                                 [Sample.good; Sample.later] Sample.start)))).
Proof.
  refine (handleFileUpload_keeps_mirror Sample.env
            [Sample.good; Sample.later] Sample.start _ _ _ _ _ Sample.trk).
  - intros d. reflexivity.
  - constructor.
  - exact good_ingestible.
  - reflexivity.
  - cbn. repeat constructor; cbn; intuition discriminate.
Defined.

Lemma handleAsk_unsaved_witness :
  chatStore (world (snd (handleAsk Sample.env Sample.refusing)))
  = chatStore (world Sample.refusing)
  /\ List.length (chatHistory (app (snd (handleAsk Sample.env
                                          Sample.refusing)))) = 2%nat.
Proof.
  destruct (handleAsk_unsaved_message_stays Sample.env Sample.refusing
              eq_refl eq_refl) as (_ & H1 & H2 & _).
  split; [exact H2|]. rewrite H1. reflexivity.
Defined.

End MoreInstances.

(** ** Opening the database *)

Section Upgrade.
Import Storage.
Context {A : Type}.

Lemma containsStore_app (db1 db2 : list (string * list A)) (name : string) :
  containsStore (db1 ++ db2) name
  = containsStore db1 name || containsStore db2 name.
Proof. unfold containsStore. apply existsb_app. Qed.

(** X27: the upgrade of [initDB] is additive: every store that existed is
    kept with its records, the documents store and the chat store both
    exist afterwards, a store is created empty and only when its name was
    missing, and upgrading again changes nothing. *)
Theorem upgrade_is_additive (db : list (string * list A)) :
  (exists created, onupgradeneeded db = (db ++ created)%list
     /\ forall st, In st created ->
          snd st = [] /\ containsStore db (fst st) = false
          /\ (fst st = DOC_STORE \/ fst st = CHAT_STORE))
  /\ containsStore (onupgradeneeded db) DOC_STORE = true
  /\ containsStore (onupgradeneeded db) CHAT_STORE = true
  /\ onupgradeneeded (onupgradeneeded db) = onupgradeneeded db.
Proof.
  assert (Hpost : forall d : list (string * list A),
            containsStore (onupgradeneeded d) DOC_STORE = true
            /\ containsStore (onupgradeneeded d) CHAT_STORE = true).
  { intros d. unfold onupgradeneeded, createObjectStore.
    destruct (containsStore d DOC_STORE) eqn:E1; cbn [negb].
    - destruct (containsStore d CHAT_STORE) eqn:E2; cbn [negb].
      + now split.
      + rewrite !containsStore_app, E1. split; [reflexivity|].
        apply orb_true_r.
    - destruct (containsStore (d ++ [(DOC_STORE, [])]) CHAT_STORE) eqn:E2;
        cbn [negb].
      + split; [|exact E2]. rewrite containsStore_app. apply orb_true_r.
      + split.
        * rewrite !containsStore_app. cbn. now rewrite !orb_true_r.
        * rewrite containsStore_app. apply orb_true_r. }
  split; [|split; [apply Hpost|split; [apply Hpost|]]].
  - unfold onupgradeneeded, createObjectStore.
    destruct (containsStore db DOC_STORE) eqn:E1; cbn [negb].
    + destruct (containsStore db CHAT_STORE) eqn:E2; cbn [negb].
      * exists []. rewrite app_nil_r. split; [reflexivity|].
        intros st [].
      * exists [(CHAT_STORE, [])]. split; [reflexivity|].
        intros st [<-|[]]. cbn. auto.
    + destruct (containsStore (db ++ [(DOC_STORE, [])]) CHAT_STORE) eqn:E2;
        cbn [negb].
      * exists [(DOC_STORE, [])]. split; [reflexivity|].
        intros st [<-|[]]. cbn. auto.
      * exists [(DOC_STORE, []); (CHAT_STORE, [])].
        split; [now rewrite <- app_assoc|].
        rewrite containsStore_app in E2. apply orb_false_elim in E2 as [E2 _].
        intros st [<-|[<-|[]]]; cbn; auto.
  - destruct (Hpost db) as [H1 H2].
    unfold onupgradeneeded at 1. rewrite H1. cbn [negb]. rewrite H2.
    reflexivity.
Qed.

End Upgrade.
